
(** * run-command: launching, wiring and reaping child processes

    A shallow embedding of [run-command.c] / [run-command.h].  The C code
    is a sequence of system calls on the calling process; it is modelled
    here as a small state-and-termination monad over an explicit model of
    the part of the operating system the code talks to: the descriptor
    table of the process, its working directory and environment, and the
    kernel's answers to [pipe], [fork] and [waitpid]. *)

From Stdlib Require Import ZArith Bool Ascii String List Lia.
From stdpp Require Import base option list strings gmap fin_maps.

Open Scope Z_scope.

(** ** Error codes ([run-command.h], the anonymous enum) *)

Definition ERR_RUN_COMMAND_FORK : Z := 10000.
Definition ERR_RUN_COMMAND_EXEC : Z := ERR_RUN_COMMAND_FORK + 1.
Definition ERR_RUN_COMMAND_PIPE : Z := ERR_RUN_COMMAND_EXEC + 1.
Definition ERR_RUN_COMMAND_WAITPID : Z := ERR_RUN_COMMAND_PIPE + 1.
Definition ERR_RUN_COMMAND_WAITPID_WRONG_PID : Z := ERR_RUN_COMMAND_WAITPID + 1.
Definition ERR_RUN_COMMAND_WAITPID_SIGNAL : Z := ERR_RUN_COMMAND_WAITPID_WRONG_PID + 1.
Definition ERR_RUN_COMMAND_WAITPID_NOEXIT : Z := ERR_RUN_COMMAND_WAITPID_SIGNAL + 1.

(** Every member of the enum, in declaration order. *)
Definition reserved_error_codes : list Z :=
  [ ERR_RUN_COMMAND_FORK; ERR_RUN_COMMAND_EXEC; ERR_RUN_COMMAND_PIPE;
    ERR_RUN_COMMAND_WAITPID; ERR_RUN_COMMAND_WAITPID_WRONG_PID;
    ERR_RUN_COMMAND_WAITPID_SIGNAL; ERR_RUN_COMMAND_WAITPID_NOEXIT ].

(** Option bits of the [run_command_v_opt] family. *)
Definition RUN_COMMAND_NO_STDIN : Z := 1.
Definition RUN_GIT_CMD : Z := 2.
Definition RUN_COMMAND_STDOUT_TO_STDERR : Z := 4.

(** ** What the platform supplies *)

(** Modelled from the spec: the wait-status macros of [<sys/wait.h>]
    (missing here), by which a status tells a process "terminated by a
    signal" from one that "exited normally with code N".  They are an
    interface with the laws POSIX gives them: an exit code is a byte,
    and [W_EXITCODE c], the status the kernel reports for a process
    that called [exit(c)], reads as a normal exit with the low byte of
    [c]. *)
Class WaitABI := {
  WIFEXITED : Z -> bool;
  WIFSIGNALED : Z -> bool;
  WEXITSTATUS : Z -> Z;
  W_EXITCODE : Z -> Z;
  WEXITSTATUS_range : forall s, 0 <= WEXITSTATUS s <= 255;
  exited_WIFEXITED : forall c, WIFEXITED (W_EXITCODE c) = true;
  exited_WIFSIGNALED : forall c, WIFSIGNALED (W_EXITCODE c) = false;
  exited_WEXITSTATUS : forall c, WEXITSTATUS (W_EXITCODE c) = c mod 256
}.

(** The encoding used by Linux: low seven bits hold the terminating
    signal, bit 7 the core flag, bits 8..15 the exit code; [0x7f] in the
    low bits marks a stopped process. *)
Definition linux_WTERMSIG (s : Z) : Z := Z.land s 127.
Definition linux_WIFEXITED (s : Z) : bool := linux_WTERMSIG s =? 0.
Definition linux_WIFSIGNALED (s : Z) : bool :=
  (0 <? linux_WTERMSIG s) && (linux_WTERMSIG s <? 127).
Definition linux_WEXITSTATUS (s : Z) : Z := Z.shiftr (Z.land s 65280) 8.
Definition linux_W_EXITCODE (c : Z) : Z := Z.shiftl (Z.land c 255) 8.

(** The helpers [error] and [die] live in [usage.c], which is not among
    the sources verified here; what the code needs from them is one
    number each: the negative value [error] returns, and the nonzero
    status [die] exits with. *)
Class Usage := {
  error_ret : Z;
  error_ret_negative : error_ret < 0;
  die_code : Z;
  die_code_reserved : 0 < die_code <= 255
}.

(** ** The process and the kernel *)

Inductive errno_t :=
  ENONE | EINTR | ECHILD | EAGAIN | EMFILE | EBADF | ENOENT | EINVAL.

#[global] Instance errno_eq_dec : EqDecision errno_t.
Proof. solve_decision. Defined.

(** What a descriptor refers to. *)
Inductive obj :=
| DevNull
| PipeR (id : nat)
| PipeW (id : nat)
| File (name : string).

#[global] Instance obj_eq_dec : EqDecision obj.
Proof. solve_decision. Defined.

(** System calls a process makes, newest first in [log]. *)
Inductive event :=
| EvPipe (r : option (Z * Z))
| EvFork (r : Z)
| EvOpenNull (fd : Z)
| EvDup2 (oldfd newfd : Z)
| EvClose (fd : Z)
| EvChdir (d : string) (ok : bool)
| EvPutenv (s : string)
| EvUnsetenv (s : string)
| EvExec (git : bool) (argv : list string) (ok : bool)
| EvWaitpid (pid : Z) (r : Z).

Record process := mkProcess {
  fdt : gmap Z obj;
  cwd : string;
  environ : gmap string string;
  errno : errno_t;
  log : list event
}.

(** How a forked child ended up. *)
Inductive child_end :=
| Execd (git : bool) (argv : list string) (p : process)
| Exited (code : Z) (p : process)
| Returned (p : process)
| Hung.

(** A scripted answer of [waitpid]. *)
Inductive wait_reply :=
| WFail (e : errno_t)
| WDone (who : Z) (status : Z).

Record world := mkWorld {
  self : process;
  pipe_script : list bool;
  fork_script : list Z;
  wait_script : list wait_reply;
  n_pipes : nat;
  children : list (Z * child_end);
  dirs : list string;
  can_exec : bool -> string -> bool;
  prog_status : list string -> Z
}.

Definition set_fdt (t : gmap Z obj) (p : process) : process :=
  mkProcess t (cwd p) (environ p) (errno p) (log p).
Definition set_cwd (d : string) (p : process) : process :=
  mkProcess (fdt p) d (environ p) (errno p) (log p).
Definition set_environ (e : gmap string string) (p : process) : process :=
  mkProcess (fdt p) (cwd p) e (errno p) (log p).
Definition set_errno (e : errno_t) (p : process) : process :=
  mkProcess (fdt p) (cwd p) (environ p) e (log p).
Definition add_log (e : event) (p : process) : process :=
  mkProcess (fdt p) (cwd p) (environ p) (errno p) (e :: log p).

Definition set_self (p : process) (w : world) : world :=
  mkWorld p (pipe_script w) (fork_script w) (wait_script w) (n_pipes w)
          (children w) (dirs w) (can_exec w) (prog_status w).
Definition upd_self (f : process -> process) (w : world) : world :=
  set_self (f (self w)) w.
Definition set_pipe_script (s : list bool) (w : world) : world :=
  mkWorld (self w) s (fork_script w) (wait_script w) (n_pipes w)
          (children w) (dirs w) (can_exec w) (prog_status w).
Definition set_fork_script (s : list Z) (w : world) : world :=
  mkWorld (self w) (pipe_script w) s (wait_script w) (n_pipes w)
          (children w) (dirs w) (can_exec w) (prog_status w).
Definition set_wait_script (s : list wait_reply) (w : world) : world :=
  mkWorld (self w) (pipe_script w) (fork_script w) s (n_pipes w)
          (children w) (dirs w) (can_exec w) (prog_status w).
Definition set_n_pipes (n : nat) (w : world) : world :=
  mkWorld (self w) (pipe_script w) (fork_script w) (wait_script w) n
          (children w) (dirs w) (can_exec w) (prog_status w).
Definition set_children (c : list (Z * child_end)) (w : world) : world :=
  mkWorld (self w) (pipe_script w) (fork_script w) (wait_script w) (n_pipes w)
          c (dirs w) (can_exec w) (prog_status w).

(** ** The monad: state, plus the ways a process stops running C code *)

Inductive outcome (A : Type) :=
| Ret (a : A) (w : world)
| Exec (git : bool) (argv : list string) (w : world)
| Exit (code : Z) (w : world)
| Diverge.
Arguments Ret {A} a w.
Arguments Exec {A} git argv w.
Arguments Exit {A} code w.
Arguments Diverge {A}.

Definition M (A : Type) : Type := world -> outcome A.

Definition ret {A} (a : A) : M A := fun w => Ret a w.

Definition bind {A B} (m : M A) (k : A -> M B) : M B := fun w =>
  match m w with
  | Ret a w' => k a w'
  | Exec g argv w' => Exec g argv w'
  | Exit c w' => Exit c w'
  | Diverge => Diverge
  end.

Declare Scope run_scope.
Delimit Scope run_scope with run.
Notation "x <- m ;; k" := (bind m (fun x => k))
  (at level 100, m at next level, right associativity) : run_scope.
Notation "m ;;; k" := (bind m (fun _ => k))
  (at level 100, right associativity) : run_scope.
Open Scope run_scope.

Definition when (b : bool) (m : M unit) : M unit := if b then m else ret tt.

(** [exit(code)]. *)
Definition exit {A} (code : Z) : M A := fun w => Exit code w.

(** ** Descriptors *)

(** POSIX hands out the lowest descriptor that is not open. *)
Fixpoint find_free (fuel : nat) (n : Z) (t : gmap Z obj) : Z :=
  match fuel with
  | O => n
  | S f => match t !! n with
           | None => n
           | Some _ => find_free f (n + 1) t
           end
  end.

Definition lowest_free (t : gmap Z obj) : Z := find_free (size t) 0 t.

(** [close(fd)]: drops the entry; on a descriptor that is not open it
    fails with [EBADF] and changes nothing else. *)
Definition close (fd : Z) : M unit := fun w =>
  let p := add_log (EvClose fd) (self w) in
  match fdt p !! fd with
  | Some _ => Ret tt (set_self (set_fdt (delete fd (fdt p)) p) w)
  | None => Ret tt (set_self (set_errno EBADF p) w)
  end.

(** [dup2(oldfd, newfd)]: [newfd] now refers to what [oldfd] refers to;
    fails with [EBADF] when [oldfd] is not open. *)
Definition dup2 (oldfd newfd : Z) : M unit := fun w =>
  let p := add_log (EvDup2 oldfd newfd) (self w) in
  match fdt p !! oldfd with
  | Some o => Ret tt (set_self (set_fdt (<[newfd := o]> (fdt p)) p) w)
  | None => Ret tt (set_self (set_errno EBADF p) w)
  end.

(** [open("/dev/null", O_RDWR)], taken to succeed: the null device is
    opened on the lowest free descriptor. *)
Definition open_devnull : M Z := fun w =>
  let fd := lowest_free (fdt (self w)) in
  let p := add_log (EvOpenNull fd) (self w) in
  Ret fd (set_self (set_fdt (<[fd := DevNull]> (fdt p)) p) w).

(** [pipe(fd)]: the kernel's answer comes from [pipe_script]; an
    exhausted script means the descriptor limit is reached. *)
Definition pipe : M (option (Z * Z)) := fun w =>
  match pipe_script w with
  | true :: rest =>
      let t := fdt (self w) in
      let r := lowest_free t in
      let t1 := <[r := PipeR (n_pipes w)]> t in
      let wr := lowest_free t1 in
      let t2 := <[wr := PipeW (n_pipes w)]> t1 in
      let p := add_log (EvPipe (Some (r, wr))) (self w) in
      Ret (Some (r, wr))
          (set_n_pipes (S (n_pipes w))
             (set_pipe_script rest (set_self (set_fdt t2 p) w)))
  | false :: rest =>
      Ret None (set_pipe_script rest
                  (set_self (set_errno EMFILE (add_log (EvPipe None) (self w))) w))
  | [] =>
      Ret None (set_self (set_errno EMFILE (add_log (EvPipe None) (self w))) w)
  end.

(** ** Processes *)

Definition end_of {A} (o : outcome A) : child_end :=
  match o with
  | Ret _ w => Returned (self w)
  | Exec g argv w => Execd g argv (self w)
  | Exit c w => Exited c (self w)
  | Diverge => Hung
  end.

(** What the child sees right after [fork]: a copy of the parent's
    process state, no children of its own, nothing to wait for. *)
Definition child_view (w : world) : world :=
  set_children [] (set_wait_script [] (upd_self (add_log (EvFork 0)) w)).

(** [fork()] returns twice: the code after it, [k], runs in the child
    with 0 and in the parent with the child's pid.  The kernel's answer
    comes from [fork_script]: a positive entry is the pid of the new
    process, anything else (or an exhausted script) is a failure, where
    [fork] returns -1 in the parent and no process is created. *)
Definition fork {A} (k : Z -> M A) : M A := fun w =>
  match fork_script w with
  | p :: rest =>
      let w0 := set_fork_script rest w in
      if 0 <? p then
        let child := end_of (k 0 (child_view w0)) in
        k p (set_children ((p, child) :: children w0)
               (upd_self (add_log (EvFork p)) w0))
      else
        k (-1) (upd_self (fun q => set_errno EAGAIN (add_log (EvFork (-1)) q)) w0)
  | [] =>
      k (-1) (upd_self (fun q => set_errno EAGAIN (add_log (EvFork (-1)) q)) w)
  end.

(** [chdir(path)]: 0 on success, -1 when the directory does not exist. *)
Definition chdir (d : string) : M Z := fun w =>
  if bool_decide (d ∈ dirs w) then
    Ret 0 (upd_self (fun p => set_cwd d (add_log (EvChdir d true) p)) w)
  else
    Ret (-1) (upd_self (fun p => set_errno ENOENT (add_log (EvChdir d false) p)) w).

(** [strchr(s, c)]: the suffix of [s] that starts at the first [c]. *)
Fixpoint strchr (s : string) (c : ascii) : option string :=
  match s with
  | EmptyString => None
  | String a s' => if Ascii.eqb a c then Some s else strchr s' c
  end.

(** The part of an environment entry before its first '='. *)
Fixpoint env_name (s : string) : string :=
  match s with
  | EmptyString => EmptyString
  | String a s' => if Ascii.eqb a "=" then EmptyString else String a (env_name s')
  end.

(** [unsetenv(name)]: refuses ([EINVAL]) an empty name or one with '='. *)
Definition unsetenv (name : string) : M unit := fun w =>
  let p := add_log (EvUnsetenv name) (self w) in
  match name, strchr name "=" with
  | String _ _, None => Ret tt (set_self (set_environ (delete name (environ p)) p) w)
  | _, _ => Ret tt (set_self (set_errno EINVAL p) w)
  end.

(** [putenv(string)]: "NAME=value" defines NAME. *)
Definition putenv (s : string) : M unit := fun w =>
  let p := add_log (EvPutenv s) (self w) in
  match strchr s "=" with
  | Some (String _ v) =>
      Ret tt (set_self (set_environ (<[env_name s := v]> (environ p)) p) w)
  | _ => Ret tt (set_self (set_environ (delete s (environ p)) p) w)
  end.

(** [execvp(file, argv)]: replaces the process image, or returns -1. *)
Definition execvp (file : option string) (argv : list string) : M Z := fun w =>
  match file with
  | Some f =>
      if can_exec w false f
      then Exec false argv (upd_self (add_log (EvExec false argv true)) w)
      else Ret (-1) (upd_self (fun p => set_errno ENOENT (add_log (EvExec false argv false) p)) w)
  | None =>
      Ret (-1) (upd_self (fun p => set_errno ENOENT (add_log (EvExec false argv false) p)) w)
  end.

(** Modelled from the spec: [execv_git_cmd] (exec_cmd.c, missing here),
    the sub-command resolver, "never returns on success; on failure,
    control returns to the caller with an indication that exec
    failed". *)
Definition execv_git_cmd (argv : list string) : M Z := fun w =>
  match head argv with
  | Some f =>
      if can_exec w true f
      then Exec true argv (upd_self (add_log (EvExec true argv true)) w)
      else Ret (-1) (upd_self (fun p => set_errno ENOENT (add_log (EvExec true argv false) p)) w)
  | None =>
      Ret (-1) (upd_self (fun p => set_errno ENOENT (add_log (EvExec true argv false) p)) w)
  end.

Section WithPlatform.
Context {abi : WaitABI} {usage : Usage}.

(** Modelled from the spec: [die] (usage.c, missing here) is the fatal
    handler that "terminates the calling process immediately", by "an
    explicit, immediate process exit with a reserved, distinguishable
    status code"; the message is formatting. *)
Definition die {A} : M A := exit die_code.

(** Modelled from the spec: [error] (usage.c, missing here) reports a
    failure; the message is formatting, the value it hands back, which
    its callers return, is negative. *)
Definition error : M Z := ret error_ret.

(** The raw status with which a child is reaped. *)
Definition status_of (w : world) (e : child_end) : option Z :=
  match e with
  | Exited c _ => Some (W_EXITCODE c)
  | Execd _ argv _ => Some (prog_status w argv)
  | Returned _ | Hung => None
  end.

(** The child [waitpid(pid, ...)] picks: the one with that pid, or any
    child when [pid] is -1 or 0; the rest of the table stays. *)
Fixpoint find_child (pid : Z) (cs : list (Z * child_end))
  : option (Z * child_end * list (Z * child_end)) :=
  match cs with
  | [] => None
  | (q, e) :: rest =>
      if (pid =? q) || (pid =? -1) || (pid =? 0) then Some (q, e, rest)
      else match find_child pid rest with
           | Some (q', e', rest') => Some (q', e', (q, e) :: rest')
           | None => None
           end
  end.

(** [waitpid(pid, &status, 0)], returning the pid and the status.  While
    [wait_script] has entries the next one is the answer (an interrupted
    call, or whatever else the kernel may say); after that the process
    table decides: the child is reaped with its status, a child that
    never terminates blocks the caller for ever, and with no such child
    the call fails with [ECHILD].  On failure the status is not written
    (and the caller does not read it). *)
Definition waitpid (pid : Z) : M (Z * Z) := fun w =>
  match wait_script w with
  | WFail e :: rest =>
      Ret (-1, 0) (set_wait_script rest
                     (upd_self (fun p => set_errno e (add_log (EvWaitpid pid (-1)) p)) w))
  | WDone q st :: rest =>
      Ret (q, st) (set_wait_script rest (upd_self (add_log (EvWaitpid pid q)) w))
  | [] =>
      match find_child pid (children w) with
      | Some (q, e, rest) =>
          match status_of w e with
          | Some st => Ret (q, st) (set_children rest (upd_self (add_log (EvWaitpid pid q)) w))
          | None => Diverge
          end
      | None =>
          Ret (-1, 0) (upd_self (fun p => set_errno ECHILD (add_log (EvWaitpid pid (-1)) p)) w)
      end
  end.

(** ** [struct child_process] and [struct async] *)

Record child_process := mkChild {
  argv : list string;
  pid : Z;
  in_ : Z;
  out : Z;
  err : Z;
  dir : option string;
  env : option (list string);
  no_stdin : bool;
  no_stdout : bool;
  no_stderr : bool;
  git_cmd : bool;
  stdout_to_stderr : bool
}.

Definition set_pid (v : Z) (c : child_process) : child_process :=
  mkChild (argv c) v (in_ c) (out c) (err c) (dir c) (env c)
          (no_stdin c) (no_stdout c) (no_stderr c) (git_cmd c) (stdout_to_stderr c).
Definition set_in (v : Z) (c : child_process) : child_process :=
  mkChild (argv c) (pid c) v (out c) (err c) (dir c) (env c)
          (no_stdin c) (no_stdout c) (no_stderr c) (git_cmd c) (stdout_to_stderr c).
Definition set_out (v : Z) (c : child_process) : child_process :=
  mkChild (argv c) (pid c) (in_ c) v (err c) (dir c) (env c)
          (no_stdin c) (no_stdout c) (no_stderr c) (git_cmd c) (stdout_to_stderr c).
Definition set_err (v : Z) (c : child_process) : child_process :=
  mkChild (argv c) (pid c) (in_ c) (out c) v (dir c) (env c)
          (no_stdin c) (no_stdout c) (no_stderr c) (git_cmd c) (stdout_to_stderr c).
Definition set_dir (v : option string) (c : child_process) : child_process :=
  mkChild (argv c) (pid c) (in_ c) (out c) (err c) v (env c)
          (no_stdin c) (no_stdout c) (no_stderr c) (git_cmd c) (stdout_to_stderr c).
Definition set_env (v : option (list string)) (c : child_process) : child_process :=
  mkChild (argv c) (pid c) (in_ c) (out c) (err c) (dir c) v
          (no_stdin c) (no_stdout c) (no_stderr c) (git_cmd c) (stdout_to_stderr c).

(** The producer of an async task receives the descriptor to write to
    and the caller's opaque datum, of type [D]. *)
Record async (D : Type) := mkAsync {
  proc : Z -> D -> M Z;
  data : D;
  a_out : Z;
  a_pid : Z
}.
Arguments mkAsync {D} proc data a_out a_pid.
Arguments proc {D} a.
Arguments data {D} a.
Arguments a_out {D} a.
Arguments a_pid {D} a.

(** ** run-command.c *)

Definition close_pair (fd : Z * Z) : M unit :=
  close (fst fd) ;;; close (snd fd).

Definition dup_devnull (to : Z) : M unit :=
  fd <- open_devnull ;;
  dup2 fd to ;;;
  close fd.

(** An [int fd[2]] that [pipe] never filled in.  The code reads such an
    array only under the matching [need_*] flag, so the value is never
    looked at. *)
Definition no_pipe : Z * Z := (-1, -1).

(** Lines 66-74: the child's standard input. *)
Definition wire_stdin (cmd : child_process) (need_in : bool) (fdin : Z * Z) : M unit :=
  if no_stdin cmd then dup_devnull 0
  else if need_in then (dup2 (fst fdin) 0 ;;; close_pair fdin)
  else if negb (in_ cmd =? 0) then (dup2 (in_ cmd) 0 ;;; close (in_ cmd))
  else ret tt.

(** Lines 76-86: the child's standard output. *)
Definition wire_stdout (cmd : child_process) (need_out : bool) (fdout : Z * Z) : M unit :=
  if no_stdout cmd then dup_devnull 1
  else if stdout_to_stderr cmd then dup2 2 1
  else if need_out then (dup2 (snd fdout) 1 ;;; close_pair fdout)
  else if 1 <? out cmd then (dup2 (out cmd) 1 ;;; close (out cmd))
  else ret tt.

(** Lines 88-93: the child's standard error. *)
Definition wire_stderr (cmd : child_process) (need_err : bool) (fderr : Z * Z) : M unit :=
  if no_stderr cmd then dup_devnull 2
  else if need_err then (dup2 (snd fderr) 2 ;;; close_pair fderr)
  else ret tt.

(** Lines 98-105: one round of the loop over [cmd->env]. *)
Definition apply_env_entry (e : string) : M unit :=
  match strchr e "=" with
  | Some _ => putenv e
  | None => unsetenv e
  end.

Fixpoint apply_env (l : list string) : M unit :=
  match l with
  | [] => ret tt
  | e :: rest => apply_env_entry e ;;; apply_env rest
  end.

(** Lines 65-112: what the child does; it never returns. *)
Definition child_branch {A} (cmd : child_process)
    (need_in need_out need_err : bool) (fdin fdout fderr : Z * Z) : M A :=
  wire_stdin cmd need_in fdin ;;;
  wire_stdout cmd need_out fdout ;;;
  wire_stderr cmd need_err fderr ;;;
  (match dir cmd with
   | Some d => r <- chdir d ;; if negb (r =? 0) then die else ret tt
   | None => ret tt
   end) ;;;
  (match env cmd with
   | Some l => apply_env l
   | None => ret tt
   end) ;;;
  (if git_cmd cmd then execv_git_cmd (argv cmd)
   else execvp (head (argv cmd)) (argv cmd)) ;;;
  die.

(** Lines 114-127: what the parent does after a successful fork. *)
Definition parent_branch (cmd : child_process)
    (need_in need_out need_err : bool) (fdin fdout fderr : Z * Z) : M Z :=
  (if need_in then close (fst fdin)
   else if negb (in_ cmd =? 0) then close (in_ cmd)
   else ret tt) ;;;
  (if need_out then close (snd fdout)
   else if 1 <? out cmd then close (out cmd)
   else ret tt) ;;;
  (if need_err then close (snd fderr) else ret tt) ;;;
  ret 0.

(** [start_command] takes [cmd] by pointer and writes to it; the model
    returns the written structure next to the [int]. *)
Definition start_command (cmd : child_process) : M (Z * child_process) :=
  let need_in := negb (no_stdin cmd) && (in_ cmd <? 0) in
  fdin_r <- (if need_in then pipe else ret (Some no_pipe)) ;;
  match fdin_r with
  | None => ret (- ERR_RUN_COMMAND_PIPE, cmd)
  | Some fdin =>
    let cmd := if need_in then set_in (snd fdin) cmd else cmd in
    let need_out := negb (no_stdout cmd) && negb (stdout_to_stderr cmd)
                    && (out cmd <? 0) in
    fdout_r <- (if need_out then pipe else ret (Some no_pipe)) ;;
    match fdout_r with
    | None =>
        when need_in (close_pair fdin) ;;;
        ret (- ERR_RUN_COMMAND_PIPE, cmd)
    | Some fdout =>
      let cmd := if need_out then set_out (fst fdout) cmd else cmd in
      let need_err := negb (no_stderr cmd) && (err cmd <? 0) in
      fderr_r <- (if need_err then pipe else ret (Some no_pipe)) ;;
      match fderr_r with
      | None =>
          when need_in (close_pair fdin) ;;;
          when need_out (close_pair fdout) ;;;
          ret (- ERR_RUN_COMMAND_PIPE, cmd)
      | Some fderr =>
        let cmd := if need_err then set_err (fst fderr) cmd else cmd in
        fork (fun p =>
          let cmd := set_pid p cmd in
          if p <? 0 then
            when need_in (close_pair fdin) ;;;
            when need_out (close_pair fdout) ;;;
            when need_err (close_pair fderr) ;;;
            ret (- ERR_RUN_COMMAND_FORK, cmd)
          else if p =? 0 then
            child_branch cmd need_in need_out need_err fdin fdout fderr
          else
            r <- parent_branch cmd need_in need_out need_err fdin fdout fderr ;;
            ret (r, cmd))
      end
    end
  end.

(** The [for (;;)] of [wait_or_whine], one round per unit of fuel. *)
Fixpoint wait_loop (fuel : nat) (pid : Z) : M Z :=
  match fuel with
  | O => fun _ => Diverge
  | S fuel' =>
      r <- waitpid pid ;;
      let '(waiting, status) := r in
      if waiting <? 0 then
        (fun w =>
           if decide (errno (self w) = EINTR) then wait_loop fuel' pid w
           else (error ;;; ret (- ERR_RUN_COMMAND_WAITPID)) w)
      else if negb (waiting =? pid) then ret (- ERR_RUN_COMMAND_WAITPID_WRONG_PID)
      else if WIFSIGNALED status then ret (- ERR_RUN_COMMAND_WAITPID_SIGNAL)
      else if negb (WIFEXITED status) then ret (- ERR_RUN_COMMAND_WAITPID_NOEXIT)
      else
        let code := WEXITSTATUS status in
        if negb (code =? 0) then ret (- code)
        else ret 0
  end.

(** Every round that does not end the loop consumes a scripted answer
    or reaps a child, so one round more than there are of both is all
    the loop can take. *)
Definition wait_or_whine (pid : Z) : M Z := fun w =>
  wait_loop (S (length (wait_script w) + length (children w))) pid w.

Definition finish_command (cmd : child_process) : M Z :=
  wait_or_whine (pid cmd).

Definition run_command (cmd : child_process) : M Z :=
  r <- start_command cmd ;;
  let '(code, cmd) := r in
  if negb (code =? 0) then ret code
  else finish_command cmd.

(** [memset(cmd, 0, sizeof( *cmd))]. *)
Definition zero_child_process : child_process :=
  mkChild [] 0 0 0 0 None None false false false false false.

Definition prepare_run_command_v_opt (argv : list string) (opt : Z) : child_process :=
  mkChild argv 0 0 0 0 None None
          (negb (Z.land opt RUN_COMMAND_NO_STDIN =? 0))
          false false
          (negb (Z.land opt RUN_GIT_CMD =? 0))
          (negb (Z.land opt RUN_COMMAND_STDOUT_TO_STDERR =? 0)).

Definition run_command_v_opt (argv : list string) (opt : Z) : M Z :=
  run_command (prepare_run_command_v_opt argv opt).

Definition run_command_v_opt_cd (argv : list string) (opt : Z)
    (dir : option string) : M Z :=
  run_command (set_dir dir (prepare_run_command_v_opt argv opt)).

Definition run_command_v_opt_cd_env (argv : list string) (opt : Z)
    (dir : option string) (env : option (list string)) : M Z :=
  run_command (set_env env (set_dir dir (prepare_run_command_v_opt argv opt))).

Definition set_a_out {D} (v : Z) (a : async D) : async D :=
  mkAsync (proc a) (data a) v (a_pid a).
Definition set_a_pid {D} (v : Z) (a : async D) : async D :=
  mkAsync (proc a) (data a) (a_out a) v.

Definition start_async {D} (a : async D) : M (Z * async D) :=
  r <- pipe ;;
  match r with
  | None => e <- error ;; ret (e, a)
  | Some pipe_out =>
      fork (fun p =>
        let a := set_a_pid p a in
        if p <? 0 then
          error ;;;
          close_pair pipe_out ;;;
          ret (-1, a)
        else if p =? 0 then
          close (fst pipe_out) ;;;
          r <- proc a (snd pipe_out) (data a) ;;
          exit (if negb (r =? 0) then 1 else 0)
        else
          let a := set_a_out (fst pipe_out) a in
          close (snd pipe_out) ;;;
          ret (0, a))
  end.

Definition finish_async {D} (a : async D) : M Z :=
  r <- wait_or_whine (a_pid a) ;;
  if negb (r =? 0) then error else ret 0.

End WithPlatform.

Arguments mkAsync {D} proc data a_out a_pid.
Arguments proc {D} a.
Arguments data {D} a.
Arguments a_out {D} a.
Arguments a_pid {D} a.

(** ** Definitions used to state the theorems *)

Section Specification.
Context {abi : WaitABI} {usage : Usage}.

(** *** The exit translator, as the specification words it *)

Inductive classification :=
| WaitError
| ProtocolError
| SignaledTermination
| AbnormalTermination
| Success
| ChildExit (n : Z).

(** The [int] in which a classification is surfaced. *)
Definition code_of (c : classification) : Z :=
  match c with
  | WaitError => - ERR_RUN_COMMAND_WAITPID
  | ProtocolError => - ERR_RUN_COMMAND_WAITPID_WRONG_PID
  | SignaledTermination => - ERR_RUN_COMMAND_WAITPID_SIGNAL
  | AbnormalTermination => - ERR_RUN_COMMAND_WAITPID_NOEXIT
  | Success => 0
  | ChildExit n => - n
  end.

(** The classification of an answer of the wait call that was not an
    interruption, in the order of priority the specification lists. *)
Definition spec_classify (pid waiting status : Z) : classification :=
  if waiting <? 0 then WaitError
  else if negb (waiting =? pid) then ProtocolError
  else if WIFSIGNALED status then SignaledTermination
  else if negb (WIFEXITED status) then AbnormalTermination
  else if WEXITSTATUS status =? 0 then Success
  else ChildExit (WEXITSTATUS status).

(** A wait call was interrupted: it failed, and [errno] says [EINTR]. *)
Definition interrupted (waiting : Z) (w : world) : Prop :=
  waiting < 0 /\ errno (self w) = EINTR.

(** [first_answer pid w (waiting, status, w')]: calling [waitpid pid]
    again and again from [w], skipping interrupted calls, the first
    call that is not interrupted answers [(waiting, status)] and leaves
    the world [w']. *)
Inductive first_answer (pid : Z) : world -> Z * Z * world -> Prop :=
| first_answer_now w waiting status w' :
    waitpid pid w = Ret (waiting, status) w' ->
    ~ interrupted waiting w' ->
    first_answer pid w (waiting, status, w')
| first_answer_retry w waiting status w1 a :
    waitpid pid w = Ret (waiting, status) w1 ->
    interrupted waiting w1 ->
    first_answer pid w1 a ->
    first_answer pid w a.

(** What bounds the number of rounds of the loop. *)
Definition wait_measure (w : world) : nat :=
  (length (wait_script w) + length (children w))%nat.

(** *** The worlds a launch goes through *)

(** The world after a [pipe] that handed out [a] and [b], when a pipe
    was needed at all. *)
Definition alloc_world (need : bool) (a b : Z) (w : world) : world :=
  if need then
    set_n_pipes (S (n_pipes w))
      (set_pipe_script (tail (pipe_script w))
         (set_self (set_fdt (<[b := PipeW (n_pipes w)]>
                               (<[a := PipeR (n_pipes w)]> (fdt (self w))))
                            (add_log (EvPipe (Some (a, b))) (self w))) w))
  else w.

(** The world after a [pipe] that failed. *)
Definition pipe_failed (w : world) : world :=
  set_pipe_script (tail (pipe_script w))
    (set_self (set_errno EMFILE (add_log (EvPipe None) (self w))) w).

(** The world after [close_pair] on two open descriptors, when there
    was a pair to close. *)
Definition closed_pair (need : bool) (a b : Z) (w : world) : world :=
  if need then
    set_self (set_fdt (delete b (delete a (fdt (self w))))
                      (add_log (EvClose b) (add_log (EvClose a) (self w)))) w
  else w.

(** The parent's world after a [fork] that failed, after one that made
    child [p] (which ended as [c]), and the child's world after it. *)
Definition fork_failed (w : world) : world :=
  upd_self (fun q => set_errno EAGAIN (add_log (EvFork (-1)) q))
           (set_fork_script (tail (fork_script w)) w).

Definition forked (p : Z) (c : child_end) (w : world) : world :=
  set_children ((p, c) :: children w)
    (upd_self (add_log (EvFork p)) (set_fork_script (tail (fork_script w)) w)).

Definition fork_child (w : world) : world :=
  child_view (set_fork_script (tail (fork_script w)) w).

(** The three [need_*] flags, as [start_command] computes them. *)
Definition needs_in (cmd : child_process) : bool :=
  negb (no_stdin cmd) && (in_ cmd <? 0).
Definition needs_out (cmd : child_process) : bool :=
  negb (no_stdout cmd) && negb (stdout_to_stderr cmd) && (out cmd <? 0).
Definition needs_err (cmd : child_process) : bool :=
  negb (no_stderr cmd) && (err cmd <? 0).

(** [cmd] once the parent's ends of the new pipes are stored in it. *)
Definition piped_cmd (cmd : child_process) (b1 a2 a3 : Z) : child_process :=
  let cmd1 := if needs_in cmd then set_in b1 cmd else cmd in
  let cmd2 := if needs_out cmd then set_out a2 cmd1 else cmd1 in
  if needs_err cmd then set_err a3 cmd2 else cmd2.

(** The world when [fork] is called, all needed pipes being there. *)
Definition piped_world (cmd : child_process) (a1 b1 a2 b2 a3 b3 : Z) (w : world)
  : world :=
  alloc_world (needs_err cmd) a3 b3
    (alloc_world (needs_out cmd) a2 b2
       (alloc_world (needs_in cmd) a1 b1 w)).

(** The descriptors [a], [b] of a pipe made in [w] were free. *)
Definition fresh_pipe (need : bool) (a b : Z) (w : world) : Prop :=
  need = true ->
  fdt (self w) !! a = None
  /\ <[a := PipeR (n_pipes w)]> (fdt (self w)) !! b = None.

(** The world in which the producer of an async task starts: the
    worker's copy of the caller's world, with the pipe in it and the
    read end closed. *)
Definition worker_world (rd wr : Z) (w : world) : world :=
  let wc := fork_child (alloc_world true rd wr w) in
  set_self (set_fdt (delete rd (fdt (self wc))) (add_log (EvClose rd) (self wc))) wc.

(** The caller's world when [start_async] returns 0. *)
Definition async_started (rd wr p : Z) (c : child_end) (w : world) : world :=
  let wp := forked p c (alloc_world true rd wr w) in
  set_self (set_fdt (delete wr (fdt (self wp))) (add_log (EvClose wr) (self wp))) wp.

(** *** What a computation may touch *)

(** [w'] is [w] except for the descriptor table, [errno] and the log. *)
Definition fd_frame (w w' : world) : Prop :=
  exists t e l,
    w' = set_self (mkProcess t (cwd (self w)) (environ (self w)) e l) w.

(** [w'] is [w] except for the environment, [errno] and the log. *)
Definition env_frame (w w' : world) : Prop :=
  exists e er l,
    w' = set_self (mkProcess (fdt (self w)) (cwd (self w)) e er l) w.

(** A computation that returns and touches descriptors only. *)
Definition fd_only (m : M unit) : Prop :=
  forall w, exists w', m w = Ret tt w' /\ fd_frame w w'.

(** A computation that returns and makes [close] calls only. *)
Definition closes_only (m : M unit) : Prop :=
  forall w, exists w' fds,
    m w = Ret tt w' /\ fd_frame w w'
    /\ log (self w') = map EvClose fds ++ log (self w).

(** [m] returns, touches descriptors only, and turns the table [t]
    into [f t]. *)
Definition fd_acts (f : gmap Z obj -> gmap Z obj) (m : M unit) : Prop :=
  forall w, exists w',
    m w = Ret tt w' /\ fd_frame w w' /\ fdt (self w') = f (fdt (self w)).

(** *** Descriptor tables after the wiring *)

(** What [dup2] and [dup_devnull] do to a descriptor table. *)
Definition t_dup2 (a b : Z) (t : gmap Z obj) : gmap Z obj :=
  match t !! a with
  | Some o => <[b := o]> t
  | None => t
  end.

Definition t_devnull (to : Z) (t : gmap Z obj) : gmap Z obj :=
  let fd := lowest_free t in
  delete fd (t_dup2 fd to (<[fd := DevNull]> t)).

(** What [wire_stdin], [wire_stdout] and [wire_stderr] do to it. *)
Definition wire_stdin_t (cmd : child_process) (ni : bool) (fi : Z * Z)
    (t : gmap Z obj) : gmap Z obj :=
  if no_stdin cmd then t_devnull 0 t
  else if ni then delete (snd fi) (delete (fst fi) (t_dup2 (fst fi) 0 t))
  else if negb (in_ cmd =? 0) then delete (in_ cmd) (t_dup2 (in_ cmd) 0 t)
  else t.

Definition wire_stdout_t (cmd : child_process) (no : bool) (fo : Z * Z)
    (t : gmap Z obj) : gmap Z obj :=
  if no_stdout cmd then t_devnull 1 t
  else if stdout_to_stderr cmd then t_dup2 2 1 t
  else if no then delete (snd fo) (delete (fst fo) (t_dup2 (snd fo) 1 t))
  else if 1 <? out cmd then delete (out cmd) (t_dup2 (out cmd) 1 t)
  else t.

Definition wire_stderr_t (cmd : child_process) (ne : bool) (fe : Z * Z)
    (t : gmap Z obj) : gmap Z obj :=
  if no_stderr cmd then t_devnull 2 t
  else if ne then delete (snd fe) (delete (fst fe) (t_dup2 (snd fe) 2 t))
  else t.

(** The child's descriptor table when it calls [exec] (or dies). *)
Definition child_fdt (cmd : child_process) (fi fo fe : Z * Z)
    (t : gmap Z obj) : gmap Z obj :=
  wire_stderr_t cmd (needs_err cmd) fe
    (wire_stdout_t cmd (needs_out cmd) fo
       (wire_stdin_t cmd (needs_in cmd) fi t)).

(** The parent's descriptor table when [start_command] returns 0. *)
Definition parent_fdt (cmd : child_process) (fi fo fe : Z * Z)
    (t : gmap Z obj) : gmap Z obj :=
  let t1 := if needs_in cmd then delete (fst fi) t
            else if negb (in_ cmd =? 0) then delete (in_ cmd) t else t in
  let t2 := if needs_out cmd then delete (snd fo) t1
            else if 1 <? out cmd then delete (out cmd) t1 else t1 in
  if needs_err cmd then delete (snd fe) t2 else t2.

(** *** The environment after the loop over [cmd->env] *)

(** What one entry does to the environment: [putenv] for an entry with
    '=', [unsetenv] (which refuses the empty name) for a bare one. *)
Definition env_step (e : gmap string string) (s : string) : gmap string string :=
  match strchr s "=" with
  | Some (String _ v) => <[env_name s := v]> e
  | Some EmptyString => delete s e
  | None => match s with
            | String _ _ => delete s e
            | EmptyString => e
            end
  end.

Definition env_after (l : option (list string)) (e : gmap string string)
  : gmap string string :=
  match l with
  | Some l => fold_left env_step l e
  | None => e
  end.

(** *** How the child ends *)

Definition chdir_fails (cmd : child_process) (w : world) : bool :=
  match dir cmd with
  | Some d => negb (bool_decide (d ∈ dirs w))
  | None => false
  end.

Definition exec_ok (cmd : child_process) (w : world) : bool :=
  match head (argv cmd) with
  | Some f => can_exec w (git_cmd cmd) f
  | None => false
  end.

(** How the child of a launch ends, [pc] being its final state. *)
Definition child_fate (cmd : child_process) (w : world) (pc : process) : child_end :=
  if chdir_fails cmd w then Exited die_code pc
  else if exec_ok cmd w then Execd (git_cmd cmd) (argv cmd) pc
  else Exited die_code pc.

(** The configuration the [run_command_v_opt*] wrappers hand to
    [run_command]. *)
Definition wrapper_cmd (argv : list string) (opt : Z) (d : option string)
    (e : option (list string)) : child_process :=
  set_env e (set_dir d (prepare_run_command_v_opt argv opt)).

(** *** Reading off an outcome *)

Definition returned {A} (o : outcome A) : option A :=
  match o with
  | Ret a _ => Some a
  | _ => None
  end.

(** The world in which a call returned ([w] itself if it did not). *)
Definition world_after {A} (o : outcome A) (w : world) : world :=
  match o with
  | Ret _ w' => w'
  | _ => w
  end.

(** The final state of the most recently forked child. *)
Definition last_child (w : world) : option process :=
  match children w with
  | (_, Execd _ _ pc) :: _ => Some pc
  | (_, Exited _ pc) :: _ => Some pc
  | _ => None
  end.

(** What descriptor [k] is in the child of a launch, if the launch
    forked. *)
Definition launched_child_fd (cmd : child_process) (w : world) (k : Z)
  : option (option obj) :=
  match start_command cmd w with
  | Ret (0, _) w' => (fun pc => fdt pc !! k) <$> last_child w'
  | _ => None
  end.

(** *** Concrete processes and launches *)

(** A process started from a shell: the three standard descriptors are
    open on the terminal. *)
Definition std_fdt : gmap Z obj :=
  <[2 := File "tty"]> (<[1 := File "tty"]> (<[0 := File "tty"]> ∅)).

Definition shell_process : process := mkProcess std_fdt "/" ∅ ENONE [].

(** A machine with resources to spare, where [true] and [false] are on
    the PATH and exit with 0 and 1, and where only "/" and "/tmp" exist. *)
Definition demo_status (argv : list string) : Z :=
  match argv with
  | "false"%string :: _ => linux_W_EXITCODE 1
  | _ => linux_W_EXITCODE 0
  end.

Definition demo_world : world :=
  mkWorld shell_process [true; true; true] [100; 101] [] 0 []
          ["/"%string; "/tmp"%string]
          (fun git f => negb git && (String.eqb f "true" || String.eqb f "false"))
          demo_status.

(** Two interrupted waits, then child 100 is reaped after [exit(3)];
    and the world once that has happened. *)
Definition interrupted_twice : world :=
  set_wait_script [WFail EINTR; WFail EINTR; WDone 100 (linux_W_EXITCODE 3)]
                  demo_world.

Definition interrupted_twice_end : world :=
  set_self (mkProcess std_fdt "/" ∅ EINTR
              [EvWaitpid 100 100; EvWaitpid 100 (-1); EvWaitpid 100 (-1)])
           demo_world.

(** A process that was started with descriptor 0 closed. *)
Definition no_stdin_world : world :=
  upd_self (set_fdt (delete 0 std_fdt)) demo_world.

(** A process that also has descriptor 5 open, on a log file. *)
Definition log_world : world :=
  upd_self (set_fdt (<[5 := File "errors.log"]> std_fdt)) demo_world.

(** [prog] with everything else zeroed. *)
Definition plain_cmd (prog : string) : child_process :=
  mkChild [prog] 0 0 0 0 None None false false false false false.

(** Stdout on the explicit descriptor 2, stderr suppressed. *)
Definition out2_quiet_cmd : child_process :=
  mkChild ["true"%string] 0 0 2 0 None None false false true false false.

(** Descriptor 5 handed over as [err], and as [in]. *)
Definition err5_cmd : child_process :=
  mkChild ["true"%string] 0 0 0 5 None None false false false false false.

Definition in5_cmd : child_process :=
  mkChild ["true"%string] 0 5 0 0 None None false false false false false.

(** A launch into a directory that does not exist. *)
Definition nowhere_cmd : child_process :=
  set_dir (Some "/nonexistent"%string) (plain_cmd "true").

(** Two definitions and an unset: FOO ends up unset, BAZ set. *)
Definition foo_cmd : child_process :=
  set_env (Some ["FOO=bar"%string; "BAZ=1"%string; "FOO"%string]) (plain_cmd "true").

(** A producer that hands back its datum as its status. *)
Definition echo_task (status : Z) : async Z :=
  mkAsync (fun _ d => ret d) status 0 0.

(** *** Further vocabulary: requests, return codes, option words,
    open descriptors *)

(** [c'] asks for the same program, directory, environment and flags
    as [c]. *)
Definition same_request (c c' : child_process) : Prop :=
  argv c' = argv c /\ dir c' = dir c /\ env c' = env c
  /\ no_stdin c' = no_stdin c /\ no_stdout c' = no_stdout c
  /\ no_stderr c' = no_stderr c /\ git_cmd c' = git_cmd c
  /\ stdout_to_stderr c' = stdout_to_stderr c.

(** The values [wait_or_whine] can return: 0, the negation of an exit
    code, or the negation of one of the four [WAITPID] codes. *)
Definition wait_code (r : Z) : Prop :=
  r = 0 \/ -255 <= r <= -1
  \/ r = - ERR_RUN_COMMAND_WAITPID \/ r = - ERR_RUN_COMMAND_WAITPID_WRONG_PID
  \/ r = - ERR_RUN_COMMAND_WAITPID_SIGNAL \/ r = - ERR_RUN_COMMAND_WAITPID_NOEXIT.

(** The option word in which the given three flags are set. *)
Definition option_bits (no_in git to_err : bool) : Z :=
  (if no_in then RUN_COMMAND_NO_STDIN else 0)
  + (if git then RUN_GIT_CMD else 0)
  + (if to_err then RUN_COMMAND_STDOUT_TO_STDERR else 0).

(** Descriptor [k] is one of the two ends of a pipe that was made. *)
Definition closed_in (need : bool) (fds : Z * Z) (k : Z) : bool :=
  need && ((k =? fst fds) || (k =? snd fds)).

(** The three standard descriptors are open. *)
Definition std_open (w : world) : Prop :=
  is_Some (fdt (self w) !! 0) /\ is_Some (fdt (self w) !! 1)
  /\ is_Some (fdt (self w) !! 2).

(** The descriptors the caller hands over in [in] and [out] are open. *)
Definition explicit_open (cmd : child_process) (w : world) : Prop :=
  (in_ cmd <> 0 -> needs_in cmd = false -> is_Some (fdt (self w) !! in_ cmd))
  /\ (1 < out cmd -> is_Some (fdt (self w) !! out cmd)).

(** All three streams asked for as pipes. *)
Definition captured_cmd : child_process :=
  mkChild ["true"%string] 0 (-1) (-1) (-1) None None false false false false false.

(** Stdout sent where stderr goes, stderr itself suppressed. *)
Definition redirected_cmd : child_process :=
  mkChild ["true"%string] 0 0 0 0 None None false false true false true.



(** A process with HOME set. *)
Definition home_world : world :=
  upd_self (set_environ (<["HOME"%string := "/root"%string]> ∅)) demo_world.

End Specification.

(** * Theorems *)

(** ** A concrete platform: Linux wait statuses, git's [usage.c] *)

Lemma linux_WEXITSTATUS_mod s : linux_WEXITSTATUS s = Z.shiftr s 8 mod 256.
Proof.
  unfold linux_WEXITSTATUS. rewrite Z.shiftr_land.
  change (Z.shiftr 65280 8) with (Z.ones 8).
  rewrite Z.land_ones by lia. reflexivity.
Qed.

Lemma linux_WTERMSIG_exit c : linux_WTERMSIG (linux_W_EXITCODE c) = 0.
Proof.
  unfold linux_WTERMSIG, linux_W_EXITCODE.
  change 127 with (Z.ones 7). rewrite Z.land_ones by lia.
  rewrite Z.shiftl_mul_pow2 by lia.
  change (2 ^ 8) with (2 * 2 ^ 7).
  rewrite Z.mul_assoc. apply Z_mod_mult.
Qed.

#[global] Program Instance linux_abi : WaitABI := {|
  WIFEXITED := linux_WIFEXITED;
  WIFSIGNALED := linux_WIFSIGNALED;
  WEXITSTATUS := linux_WEXITSTATUS;
  W_EXITCODE := linux_W_EXITCODE
|}.
Next Obligation.
  intros s. rewrite linux_WEXITSTATUS_mod.
  pose proof (Z.mod_pos_bound (Z.shiftr s 8) 256). lia.
Qed.
Next Obligation.
  intros c. unfold linux_WIFEXITED. rewrite linux_WTERMSIG_exit. reflexivity.
Qed.
Next Obligation.
  intros c. unfold linux_WIFSIGNALED. rewrite linux_WTERMSIG_exit. reflexivity.
Qed.
Next Obligation.
  intros c. rewrite linux_WEXITSTATUS_mod. unfold linux_W_EXITCODE.
  rewrite Z.shiftr_shiftl_l by lia. change (8 - 8) with 0.
  rewrite Z.shiftl_0_r. change 255 with (Z.ones 8).
  rewrite Z.land_ones by lia. change (2 ^ 8) with 256.
  apply Z.mod_mod. lia.
Qed.

(** git's [usage.c]: [error] returns -1 and [die] exits with 128. *)
#[global] Program Instance git_usage : Usage := {|
  error_ret := -1;
  die_code := 128
|}.
Next Obligation. lia. Qed.
Next Obligation. lia. Qed.

(** ** The wait loop *)

Section Translator.
Context {abi : WaitABI} {usage : Usage}.

Lemma find_child_length pid cs q e rest :
  find_child pid cs = Some (q, e, rest) -> length cs = S (length rest).
Proof.
  revert q e rest. induction cs as [|[q0 e0] cs IH]; intros q e rest; simpl.
  - discriminate.
  - destruct ((pid =? q0) || (pid =? -1) || (pid =? 0)).
    + intros [= <- <- <-]. reflexivity.
    + destruct (find_child pid cs) as [[[q' e'] rest']|] eqn:E; [|discriminate].
      intros [= <- <- <-]. simpl. f_equal. eapply IH. reflexivity.
Qed.

Lemma waitpid_interrupted_decreases pid w waiting status w1 :
  waitpid pid w = Ret (waiting, status) w1 ->
  interrupted waiting w1 ->
  (wait_measure w1 < wait_measure w)%nat.
Proof.
  unfold waitpid, wait_measure, interrupted.
  destruct (wait_script w) as [|[e|q st] rest] eqn:Es.
  - destruct (find_child pid (children w)) as [[[q e] rest]|] eqn:Ef.
    + destruct (status_of w e); [|discriminate].
      intros [= <- <- <-] _. simpl. rewrite Es.
      apply find_child_length in Ef. rewrite Ef. simpl. lia.
    + intros [= <- <- <-] [_ He]. simpl in He. discriminate.
  - intros [= <- <- <-] _. simpl. lia.
  - intros [= <- <- <-] _. simpl. lia.
Qed.

Lemma wait_loop_round fuel pid w waiting status w' :
  waitpid pid w = Ret (waiting, status) w' ->
  wait_loop (S fuel) pid w =
    if decide (interrupted waiting w') then wait_loop fuel pid w'
    else Ret (code_of (spec_classify pid waiting status)) w'.
Proof.
  intros Hw. simpl. unfold bind. rewrite Hw.
  unfold spec_classify, interrupted, error, ret.
  destruct (waiting <? 0) eqn:Eneg.
  - apply Z.ltb_lt in Eneg.
    destruct (decide (errno (self w') = EINTR)) as [He|He].
    + rewrite decide_True by auto. reflexivity.
    + rewrite decide_False by tauto. reflexivity.
  - apply Z.ltb_ge in Eneg. rewrite decide_False by lia.
    destruct (negb (waiting =? pid)); [reflexivity|].
    destruct (WIFSIGNALED status); [reflexivity|].
    destruct (negb (WIFEXITED status)); [reflexivity|].
    destruct (WEXITSTATUS status =? 0) eqn:E0; simpl.
    + reflexivity.
    + reflexivity.
Qed.

Lemma wait_loop_first_answer pid w a :
  first_answer pid w a ->
  forall fuel, (wait_measure w < fuel)%nat ->
  wait_loop fuel pid w =
    Ret (code_of (spec_classify pid (fst (fst a)) (snd (fst a)))) (snd a).
Proof.
  induction 1 as [w waiting status w' Hw Hni | w waiting status w1 a Hw Hi _ IH];
    intros fuel Hfuel; (destruct fuel as [|fuel]; [lia|]).
  - rewrite (wait_loop_round _ _ _ _ _ _ Hw).
    rewrite decide_False by assumption. reflexivity.
  - rewrite (wait_loop_round _ _ _ _ _ _ Hw).
    rewrite decide_True by assumption.
    apply IH. pose proof (waitpid_interrupted_decreases _ _ _ _ _ Hw Hi). lia.
Qed.

(** The loop cannot go on for ever by itself: it answers, or [waitpid]
    blocks on a child that never terminates. *)
Lemma wait_loop_total pid : forall fuel w,
  (wait_measure w < fuel)%nat ->
  (exists a, first_answer pid w a) \/ wait_loop fuel pid w = Diverge.
Proof.
  induction fuel as [|fuel IH]; intros w Hfuel; [lia|].
  destruct (waitpid pid w) as [[waiting status] w'| | |] eqn:Hw.
  - rewrite (wait_loop_round _ _ _ _ _ _ Hw).
    destruct (decide (interrupted waiting w')) as [Hi|Hni].
    + pose proof (waitpid_interrupted_decreases _ _ _ _ _ Hw Hi) as Hd.
      destruct (IH w' ltac:(lia)) as [[a Ha]|Hdiv].
      * left. exists a. eapply first_answer_retry; eassumption.
      * right. assumption.
    + left. eexists. eapply first_answer_now; eassumption.
  - exfalso. revert Hw. unfold waitpid.
    destruct (wait_script w) as [|[?|? ?] ?]; try discriminate.
    destruct (find_child pid (children w)) as [[[? e] ?]|]; try discriminate.
    destruct (status_of w e); discriminate.
  - exfalso. revert Hw. unfold waitpid.
    destruct (wait_script w) as [|[?|? ?] ?]; try discriminate.
    destruct (find_child pid (children w)) as [[[? e] ?]|]; try discriminate.
    destruct (status_of w e); discriminate.
  - right. simpl. unfold bind. rewrite Hw. reflexivity.
Qed.

End Translator.

(** ** The exit translator *)

Section TranslatorTheorems.
Context {abi : WaitABI} {usage : Usage}.

Lemma wait_or_whine_first_answer pid w a :
  first_answer pid w a ->
  wait_or_whine pid w =
    Ret (code_of (spec_classify pid (fst (fst a)) (snd (fst a)))) (snd a).
Proof.
  intros H. unfold wait_or_whine.
  apply (wait_loop_first_answer pid w a H). unfold wait_measure. lia.
Qed.

(** C1: [wait_or_whine] (and [finish_command], which is the same call on
    [cmd->pid]) waits until a wait call is not interrupted by a signal,
    however many interrupted calls come first, and returns the
    classification of that answer in the priority order wait error,
    wrong pid, signal, no normal exit, exit 0, exit N. *)
Theorem wait_or_whine_classifies (cmd : child_process) w waiting status w' :
  first_answer (pid cmd) w (waiting, status, w') ->
  wait_or_whine (pid cmd) w
    = Ret (code_of (spec_classify (pid cmd) waiting status)) w'
  /\ finish_command cmd w
    = Ret (code_of (spec_classify (pid cmd) waiting status)) w'.
Proof.
  intros H. unfold finish_command.
  rewrite (wait_or_whine_first_answer _ _ _ H). simpl. auto.
Qed.

(** C4: a normal exit with nonzero code N is returned as -N; N is at
    most 255 and every reserved error code is at least 10000, so -N is
    the negation of no reserved code. *)
Theorem child_exit_never_collides pid w status w' N :
  first_answer pid w (pid, status, w') ->
  0 <= pid ->
  WIFSIGNALED status = false ->
  WIFEXITED status = true ->
  WEXITSTATUS status = N ->
  N <> 0 ->
  wait_or_whine pid w = Ret (- N) w'
  /\ 0 < N <= 255
  /\ Forall (fun e => 10000 <= e /\ N < e /\ - N <> - e) reserved_error_codes.
Proof.
  intros H Hpid Hsig Hex Hcode HN.
  pose proof (WEXITSTATUS_range status) as Hr. rewrite Hcode in Hr.
  split; [|split].
  - rewrite (wait_or_whine_first_answer _ _ _ H). simpl.
    unfold spec_classify.
    replace (pid <? 0) with false by (symmetry; apply Z.ltb_ge; lia).
    rewrite Z.eqb_refl, Hsig, Hex, Hcode. simpl.
    replace (N =? 0) with false by (symmetry; apply Z.eqb_neq; assumption).
    reflexivity.
  - lia.
  - unfold reserved_error_codes, ERR_RUN_COMMAND_WAITPID_NOEXIT,
      ERR_RUN_COMMAND_WAITPID_SIGNAL, ERR_RUN_COMMAND_WAITPID_WRONG_PID,
      ERR_RUN_COMMAND_WAITPID, ERR_RUN_COMMAND_PIPE, ERR_RUN_COMMAND_EXEC,
      ERR_RUN_COMMAND_FORK.
    repeat constructor; lia.
Qed.

End TranslatorTheorems.

Lemma interrupted_twice_first_answer :
  first_answer 100 interrupted_twice (100, linux_W_EXITCODE 3, interrupted_twice_end).
Proof.
  eapply first_answer_retry; [reflexivity | split; [lia | reflexivity] |].
  eapply first_answer_retry; [reflexivity | split; [lia | reflexivity] |].
  eapply first_answer_now; [reflexivity |].
  intros [Hneg _]. lia.
Defined.

Lemma wait_or_whine_classifies_witness :
  first_answer 100 interrupted_twice (100, linux_W_EXITCODE 3, interrupted_twice_end)
  /\ finish_command (set_pid 100 zero_child_process) interrupted_twice
     = Ret (-3) interrupted_twice_end.
Proof.
  split; [exact interrupted_twice_first_answer |].
  apply (wait_or_whine_classifies (set_pid 100 zero_child_process)
           interrupted_twice 100 (linux_W_EXITCODE 3) interrupted_twice_end
           interrupted_twice_first_answer).
Defined.

Lemma child_exit_never_collides_witness :
  wait_or_whine 100 interrupted_twice = Ret (- 3) interrupted_twice_end
  /\ 0 < 3 <= 255
  /\ Forall (fun e => 10000 <= e /\ 3 < e /\ - 3 <> - e) reserved_error_codes.
Proof.
  apply (child_exit_never_collides 100 interrupted_twice (linux_W_EXITCODE 3)
           interrupted_twice_end 3 interrupted_twice_first_answer).
  - lia.
  - reflexivity.
  - reflexivity.
  - reflexivity.
  - lia.
Defined.

(** ** Descriptor tables *)

Lemma find_free_fresh (t : gmap Z obj) : forall fuel n (X : gset Z),
  (forall k, n <= k -> is_Some (t !! k) -> k ∈ X) ->
  (size X <= fuel)%nat ->
  t !! find_free fuel n t = None.
Proof.
  induction fuel as [|fuel IH]; intros n X HX Hsize; simpl.
  - destruct (t !! n) eqn:E; [|reflexivity].
    assert (n ∈ X) as Hin by (apply HX; [lia | eauto]).
    assert (X = ∅) as -> by (apply leibniz_equiv, size_empty_inv; lia).
    set_solver.
  - destruct (t !! n) eqn:E; [|assumption].
    assert (n ∈ X) as Hin by (apply HX; [lia | eauto]).
    apply (IH (n + 1) (X ∖ {[n]})).
    + intros k Hk Hs. apply elem_of_difference. split.
      * apply HX; [lia | assumption].
      * rewrite elem_of_singleton. lia.
    + rewrite size_difference by (apply singleton_subseteq_l; exact Hin).
      rewrite size_singleton. lia.
Qed.

Lemma lowest_free_fresh (t : gmap Z obj) : t !! lowest_free t = None.
Proof.
  unfold lowest_free. apply (find_free_fresh t (size t) 0 (dom t)).
  - intros k _ Hs. apply elem_of_dom. assumption.
  - rewrite size_dom. lia.
Qed.

Lemma lowest_free_open_ne (t : gmap Z obj) k :
  is_Some (t !! k) -> lowest_free t <> k.
Proof.
  intros [o Ho] E. rewrite <- E, lowest_free_fresh in Ho. discriminate.
Qed.

(** ** Stepping through system calls *)

Lemma pipe_cases w :
  (exists a b,
      fdt (self w) !! a = None
      /\ <[a := PipeR (n_pipes w)]> (fdt (self w)) !! b = None
      /\ pipe w = Ret (Some (a, b)) (alloc_world true a b w))
  \/ pipe w = Ret None (pipe_failed w).
Proof.
  unfold pipe, pipe_failed. destruct w as [p ps fs ws n ch ds ce pst].
  destruct ps as [|[] ps]; simpl.
  - right. reflexivity.
  - left. eexists _, _. split; [|split; [|reflexivity]]; apply lowest_free_fresh.
  - right. reflexivity.
Qed.

Lemma maybe_pipe_cases (need : bool) w :
  (exists a b,
      (need = true ->
         fdt (self w) !! a = None
         /\ <[a := PipeR (n_pipes w)]> (fdt (self w)) !! b = None)
      /\ (need = false -> (a, b) = no_pipe)
      /\ (if need then pipe else ret (Some no_pipe)) w
         = Ret (Some (a, b)) (alloc_world need a b w))
  \/ (need = true
      /\ (if need then pipe else ret (Some no_pipe)) w = Ret None (pipe_failed w)).
Proof.
  destruct need.
  - destruct (pipe_cases w) as [(a & b & Ha & Hb & E)|E].
    + left. exists a, b. repeat split; auto; discriminate.
    + right. auto.
  - left. exists (-1), (-1). repeat split; discriminate.
Qed.

Lemma fork_cases {A} (k : Z -> M A) w :
  (exists p, 0 < p /\ head (fork_script w) = Some p
     /\ fork k w = k p (forked p (end_of (k 0 (fork_child w))) w))
  \/ ((forall p, head (fork_script w) = Some p -> p <= 0)
      /\ fork k w = k (-1) (fork_failed w)).
Proof.
  unfold fork, forked, fork_failed, fork_child.
  destruct w as [p ps fs ws n ch ds ce pst]. destruct fs as [|q fs]; simpl.
  - right. split; [discriminate | reflexivity].
  - destruct (0 <? q) eqn:E.
    + left. exists q. apply Z.ltb_lt in E. split; [assumption|].
      split; reflexivity.
    + right. apply Z.ltb_ge in E. split; [|reflexivity].
      intros ? [= <-]. assumption.
Qed.

Lemma close_open fd w :
  is_Some (fdt (self w) !! fd) ->
  close fd w = Ret tt (set_self (set_fdt (delete fd (fdt (self w)))
                                         (add_log (EvClose fd) (self w))) w).
Proof. intros [o Ho]. unfold close. simpl. rewrite Ho. reflexivity. Qed.

Lemma when_close_pair (need : bool) a b w :
  (need = true -> is_Some (fdt (self w) !! a) /\ is_Some (fdt (self w) !! b) /\ a <> b) ->
  when need (close_pair (a, b)) w = Ret tt (closed_pair need a b w).
Proof.
  destruct need; simpl; [|reflexivity].
  intros H. destruct (H eq_refl) as (Ha & Hb & Hab).
  unfold close_pair, bind. simpl. rewrite (close_open a w Ha).
  rewrite close_open by (simpl; rewrite lookup_delete_ne by assumption; exact Hb).
  reflexivity.
Qed.

Lemma bind_Ret {A B} (m : M A) (k : A -> M B) w a w' :
  m w = Ret a w' -> bind m k w = k a w'.
Proof. intros E. unfold bind. rewrite E. reflexivity. Qed.

Lemma fd_frame_refl w : fd_frame w w.
Proof.
  exists (fdt (self w)), (errno (self w)), (log (self w)).
  destruct w as [[] ? ? ? ? ? ? ? ?]. reflexivity.
Qed.

Lemma fd_frame_trans w1 w2 w3 : fd_frame w1 w2 -> fd_frame w2 w3 -> fd_frame w1 w3.
Proof.
  intros (t & e & l & ->) (t' & e' & l' & ->). exists t', e', l'. reflexivity.
Qed.

Lemma close_frame fd w :
  exists w', close fd w = Ret tt w' /\ fd_frame w w'
             /\ log (self w') = EvClose fd :: log (self w).
Proof.
  unfold close. simpl. destruct (fdt (self w) !! fd).
  - eexists. split; [reflexivity|]. split; [|reflexivity].
    eexists _, _, _. reflexivity.
  - eexists. split; [reflexivity|]. split; [|reflexivity].
    eexists _, _, _. reflexivity.
Qed.

Lemma dup2_frame a b w :
  exists w', dup2 a b w = Ret tt w' /\ fd_frame w w'.
Proof.
  unfold dup2. simpl. destruct (fdt (self w) !! a).
  - eexists. split; [reflexivity|]. eexists _, _, _. reflexivity.
  - eexists. split; [reflexivity|]. eexists _, _, _. reflexivity.
Qed.

Lemma open_devnull_frame w :
  exists fd w', open_devnull w = Ret fd w' /\ fd_frame w w'.
Proof.
  unfold open_devnull. eexists _, _. split; [reflexivity|].
  eexists _, _, _. reflexivity.
Qed.

Lemma fd_only_ret : fd_only (ret tt).
Proof. intros w. exists w. split; [reflexivity | apply fd_frame_refl]. Qed.

Lemma fd_only_seq m1 m2 : fd_only m1 -> fd_only m2 -> fd_only (m1 ;;; m2).
Proof.
  intros H1 H2 w. destruct (H1 w) as (w1 & E1 & F1).
  destruct (H2 w1) as (w2 & E2 & F2). exists w2.
  rewrite (bind_Ret _ _ _ _ _ E1). split; [exact E2|].
  eapply fd_frame_trans; eassumption.
Qed.

Lemma fd_only_close fd : fd_only (close fd).
Proof. intros w. destruct (close_frame fd w) as (w' & E & F & _). eauto. Qed.

Lemma fd_only_dup2 a b : fd_only (dup2 a b).
Proof. intros w. apply dup2_frame. Qed.

Lemma fd_only_close_pair fds : fd_only (close_pair fds).
Proof. apply fd_only_seq; apply fd_only_close. Qed.

Lemma fd_only_dup_devnull to : fd_only (dup_devnull to).
Proof.
  intros w. unfold dup_devnull.
  destruct (open_devnull_frame w) as (fd & w1 & E1 & F1).
  rewrite (bind_Ret _ _ _ _ _ E1).
  destruct (fd_only_seq _ _ (fd_only_dup2 fd to) (fd_only_close fd) w1)
    as (w2 & E2 & F2).
  exists w2. split; [exact E2|]. eapply fd_frame_trans; eassumption.
Qed.

Create HintDb fd_only.
#[global] Hint Resolve fd_only_ret fd_only_seq fd_only_close fd_only_dup2
  fd_only_close_pair fd_only_dup_devnull : fd_only.

Section LaunchLemmas.
Context {usage : Usage}.

Lemma fd_only_wire_stdin cmd need fds : fd_only (wire_stdin cmd need fds).
Proof.
  unfold wire_stdin.
  destruct (no_stdin cmd), need, (negb (in_ cmd =? 0)); auto with fd_only.
Qed.

Lemma fd_only_wire_stdout cmd need fds : fd_only (wire_stdout cmd need fds).
Proof.
  unfold wire_stdout.
  destruct (no_stdout cmd), (stdout_to_stderr cmd), need, (1 <? out cmd);
    auto with fd_only.
Qed.

Lemma fd_only_wire_stderr cmd need fds : fd_only (wire_stderr cmd need fds).
Proof.
  unfold wire_stderr. destruct (no_stderr cmd), need; auto with fd_only.
Qed.

End LaunchLemmas.

Lemma closes_only_ret : closes_only (ret tt).
Proof.
  intros w. exists w, []. split; [reflexivity|].
  split; [apply fd_frame_refl | reflexivity].
Qed.

Lemma closes_only_close fd : closes_only (close fd).
Proof.
  intros w. destruct (close_frame fd w) as (w' & E & F & L).
  exists w', [fd]. auto.
Qed.

Lemma closes_only_seq m1 m2 :
  closes_only m1 -> closes_only m2 -> closes_only (m1 ;;; m2).
Proof.
  intros H1 H2 w. destruct (H1 w) as (w1 & l1 & E1 & F1 & L1).
  destruct (H2 w1) as (w2 & l2 & E2 & F2 & L2). exists w2, (l2 ++ l1).
  rewrite (bind_Ret _ _ _ _ _ E1). split; [exact E2|].
  split; [eapply fd_frame_trans; eassumption|].
  rewrite L2, L1, map_app, app_assoc. reflexivity.
Qed.

Lemma parent_branch_closes cmd ni no ne fi fo fe w :
  exists w' fds,
    parent_branch cmd ni no ne fi fo fe w = Ret 0 w' /\ fd_frame w w'
    /\ log (self w') = map EvClose fds ++ log (self w).
Proof.
  unfold parent_branch.
  assert (closes_only
            ((if ni then close (fst fi)
              else if negb (in_ cmd =? 0) then close (in_ cmd) else ret tt) ;;;
             (if no then close (snd fo)
              else if 1 <? out cmd then close (out cmd) else ret tt) ;;;
             (if ne then close (snd fe) else ret tt))) as H.
  { repeat apply closes_only_seq;
      repeat match goal with |- closes_only (if ?b then _ else _) => destruct b end;
      auto using closes_only_close, closes_only_ret. }
  destruct (H w) as (w' & fds & E & F & L). exists w', fds.
  split; [|auto].
  change (parent_branch cmd ni no ne fi fo fe w) with
    (bind (if ni then close (fst fi)
           else if negb (in_ cmd =? 0) then close (in_ cmd) else ret tt)
       (fun _ => bind (if no then close (snd fo)
                       else if 1 <? out cmd then close (out cmd) else ret tt)
          (fun _ => bind (if ne then close (snd fe) else ret tt)
             (fun _ => ret 0))) w) in *.
  revert E. unfold bind.
  destruct ((if ni then close (fst fi)
             else if negb (in_ cmd =? 0) then close (in_ cmd) else ret tt) w)
    as [[] w1| | |]; try discriminate.
  destruct ((if no then close (snd fo)
             else if 1 <? out cmd then close (out cmd) else ret tt) w1)
    as [[] w2| | |]; try discriminate.
  destruct ((if ne then close (snd fe) else ret tt) w2)
    as [[] w3| | |]; try discriminate.
  intros [= ->]. reflexivity.
Qed.

Section Launch.
Context {usage : Usage}.

Ltac not_in_log :=
  let H := fresh in
  intros H;
  repeat (apply elem_of_cons in H as [H|H]; [discriminate H|]);
  try (apply elem_of_nil in H; contradiction).

Ltac flatten_fresh :=
  repeat match goal with
  | H : true = true -> _ |- _ => specialize (H eq_refl)
  | H : false = false -> _ |- _ => specialize (H eq_refl)
  | H : true = false -> _ |- _ => clear H
  | H : false = true -> _ |- _ => clear H
  | H : _ /\ _ |- _ => destruct H
  | H : <[_:=_]> _ !! _ = None |- _ => apply lookup_insert_None in H
  | H : (_, _) = no_pipe |- _ => clear H
  end.

Ltac case_keys k :=
  repeat match goal with
  | H : _ !! ?a = None |- _ =>
      lazymatch goal with
      | _ : k = a |- _ => fail
      | _ : k <> a |- _ => fail
      | _ => destruct (decide (k = a))
      end
  end.

Ltac table_eq :=
  let k := fresh "k" in
  apply map_eq; intros k; case_keys k; simplify_map_eq; done.

Ltac in_log := apply list_elem_of_In; simpl; auto 20.

Ltac pipes_closed :=
  let a := fresh "a" in let b := fresh "b" in let H := fresh "Hin" in
  intros a b H;
  repeat (apply elem_of_cons in H as [H|H];
          [first [discriminate H | injection H as -> ->; split; in_log] |]);
  apply elem_of_nil in H; contradiction.

Ltac post_fail :=
  split; [reflexivity|];
  split; [first [intros _; reflexivity | not_in_log]|];
  split; [first [intros _; reflexivity | not_in_log]|];
  intros _; split; [reflexivity|];
  split; [first [reflexivity | table_eq]|];
  split; [reflexivity|]; pipes_closed.

Ltac open_side :=
  intros; subst;
  unfold pipe_failed, fork_failed, closed_pair, alloc_world in *;
  simpl in *; flatten_fresh; simpl in *; flatten_fresh;
  repeat split; simplify_map_eq; eauto.

Ltac close_side :=
  repeat match goal with H : _ = Ret _ _ |- _ => clear H end;
  intros; subst;
  repeat match goal with x := _ |- _ => subst x end;
  repeat match goal with b : bool |- _ => destruct b end;
  try discriminate; open_side.

Ltac close_step need a b :=
  match goal with
  | |- context [bind (when need (close_pair (a, b))) _ ?W] =>
      let H := fresh in
      assert (H := when_close_pair need a b W ltac:(close_side));
      rewrite (bind_Ret _ _ _ _ _ H); clear H
  end.

Lemma not_in_closes (e : event) fds (l : list event) :
  (forall fd, e <> EvClose fd) -> e ∈ map EvClose fds ++ l -> e ∈ l.
Proof.
  intros Hne [H|H]%elem_of_app; [|assumption].
  apply list_elem_of_In, in_map_iff in H as (fd & Hfd & _).
  exfalso. eapply Hne. symmetry. eassumption.
Qed.

(** C2: [start_command] always returns in the parent.  If one of its
    [pipe] calls failed it returns [-ERR_RUN_COMMAND_PIPE], if its
    [fork] failed [-ERR_RUN_COMMAND_FORK]; in both cases the value is
    negative, both ends of every pipe made earlier in the call have been
    closed, the descriptor table is what it was before the call, and no
    child has been created. *)
Theorem start_command_rolls_back cmd w :
  exists r cmd' w' evs,
    start_command cmd w = Ret (r, cmd') w'
    /\ log (self w') = evs ++ log (self w)
    /\ (EvPipe None ∈ evs -> r = - ERR_RUN_COMMAND_PIPE)
    /\ (EvFork (-1) ∈ evs -> r = - ERR_RUN_COMMAND_FORK)
    /\ (EvPipe None ∈ evs \/ EvFork (-1) ∈ evs ->
        r < 0 /\ fdt (self w') = fdt (self w) /\ children w' = children w
        /\ forall a b, EvPipe (Some (a, b)) ∈ evs ->
                       EvClose a ∈ evs /\ EvClose b ∈ evs).
Proof.
  unfold start_command.
  set (ni := negb (no_stdin cmd) && (in_ cmd <? 0)). clearbody ni.
  destruct (maybe_pipe_cases ni w) as [(a1 & b1 & F1 & N1 & E1)|[T1 E1]];
    rewrite (bind_Ret _ _ _ _ _ E1); cbv zeta.
  2:{ exists (- ERR_RUN_COMMAND_PIPE), cmd, (pipe_failed w), [EvPipe None].
      split; [reflexivity|]. post_fail. }
  simpl snd. simpl fst.
  set (cmd1 := if ni then set_in b1 cmd else cmd).
  set (no := negb (no_stdout cmd1) && negb (stdout_to_stderr cmd1) && (out cmd1 <? 0)).
  clearbody no.
  set (w1 := alloc_world ni a1 b1 w) in *.
  destruct (maybe_pipe_cases no w1) as [(a2 & b2 & F2 & N2 & E2)|[T2 E2]];
    rewrite (bind_Ret _ _ _ _ _ E2); cbv zeta.
  2:{ close_step ni a1 b1.
      exists (- ERR_RUN_COMMAND_PIPE), cmd1, (closed_pair ni a1 b1 (pipe_failed w1)),
        ((if ni then [EvClose b1; EvClose a1] else [])
           ++ EvPipe None :: (if ni then [EvPipe (Some (a1, b1))] else [])).
      split; [reflexivity|]. subst w1. clear E1 E2.
      destruct ni; simpl; flatten_fresh; post_fail. }
  simpl snd. simpl fst.
  set (cmd2 := if no then set_out a2 cmd1 else cmd1).
  set (ne := negb (no_stderr cmd2) && (err cmd2 <? 0)). clearbody ne.
  set (w2 := alloc_world no a2 b2 w1) in *.
  destruct (maybe_pipe_cases ne w2) as [(a3 & b3 & F3 & N3 & E3)|[T3 E3]];
    rewrite (bind_Ret _ _ _ _ _ E3); cbv zeta.
  2:{ close_step ni a1 b1. close_step no a2 b2.
      exists (- ERR_RUN_COMMAND_PIPE), cmd2,
        (closed_pair no a2 b2 (closed_pair ni a1 b1 (pipe_failed w2))),
        ((if no then [EvClose b2; EvClose a2] else [])
           ++ (if ni then [EvClose b1; EvClose a1] else [])
           ++ EvPipe None :: (if no then [EvPipe (Some (a2, b2))] else [])
           ++ (if ni then [EvPipe (Some (a1, b1))] else [])).
      split; [reflexivity|]. subst w2 w1. clear E1 E2 E3.
      destruct ni, no; simpl in *; flatten_fresh; post_fail. }
  simpl snd. simpl fst.
  set (cmd3 := if ne then set_err a3 cmd2 else cmd2).
  set (w3 := alloc_world ne a3 b3 w2) in *.
  match goal with |- context [fork ?k w3] =>
    pose proof (fork_cases k w3) as Hf
  end.
  destruct Hf as [(p & Hp & _ & Ef)|[_ Ef]]; rewrite Ef; clear Ef; cbv beta zeta.
  - replace (p <? 0) with false by (symmetry; apply Z.ltb_ge; lia).
    replace (p =? 0) with false by (symmetry; apply Z.eqb_neq; lia).
    match goal with |- context [bind (parent_branch ?c ?x ?y ?z ?f1 ?f2 ?f3) _ ?W] =>
      destruct (parent_branch_closes c x y z f1 f2 f3 W) as (w' & fds & Ep & Fp & Lp)
    end.
    rewrite (bind_Ret _ _ _ _ _ Ep).
    exists 0, (set_pid p cmd3), w',
      (map EvClose fds ++ EvFork p
         :: (if ne then [EvPipe (Some (a3, b3))] else [])
         ++ (if no then [EvPipe (Some (a2, b2))] else [])
         ++ (if ni then [EvPipe (Some (a1, b1))] else [])).
    split; [reflexivity|].
    assert (forall e, (forall fd, e <> EvClose fd) -> (forall q, e = EvFork q -> q <= 0) ->
                      (forall fds, e <> EvPipe (Some fds)) ->
                      ~ e ∈ map EvClose fds ++ EvFork p
                        :: (if ne then [EvPipe (Some (a3, b3))] else [])
                        ++ (if no then [EvPipe (Some (a2, b2))] else [])
                        ++ (if ni then [EvPipe (Some (a1, b1))] else [])) as Hnot.
    { intros e H1 H2 H3 Hin. apply not_in_closes in Hin; [|assumption].
      apply elem_of_cons in Hin as [->|Hin]; [specialize (H2 p eq_refl); lia|].
      destruct ne, no, ni; simpl in Hin;
        repeat (apply elem_of_cons in Hin as [->|Hin]; [eapply H3; reflexivity|]);
        apply elem_of_nil in Hin; contradiction. }
    assert (~ EvPipe None ∈ map EvClose fds ++ EvFork p
                        :: (if ne then [EvPipe (Some (a3, b3))] else [])
                        ++ (if no then [EvPipe (Some (a2, b2))] else [])
                        ++ (if ni then [EvPipe (Some (a1, b1))] else [])) as Hn1
      by (apply Hnot; intros; discriminate).
    assert (~ EvFork (-1) ∈ map EvClose fds ++ EvFork p
                        :: (if ne then [EvPipe (Some (a3, b3))] else [])
                        ++ (if no then [EvPipe (Some (a2, b2))] else [])
                        ++ (if ni then [EvPipe (Some (a1, b1))] else [])) as Hn2
      by (apply Hnot; [discriminate | intros q [= <-]; lia | discriminate]).
    split; [|split; [|split]]; try tauto.
    rewrite Lp, <- app_assoc. f_equal. subst w3 w2 w1.
    destruct ne, no, ni; reflexivity.
  - change (-1 <? 0) with true. cbv iota.
    close_step ni a1 b1. close_step no a2 b2. close_step ne a3 b3.
    exists (- ERR_RUN_COMMAND_FORK), (set_pid (-1) cmd3),
      (closed_pair ne a3 b3 (closed_pair no a2 b2 (closed_pair ni a1 b1 (fork_failed w3)))),
      ((if ne then [EvClose b3; EvClose a3] else [])
         ++ (if no then [EvClose b2; EvClose a2] else [])
         ++ (if ni then [EvClose b1; EvClose a1] else [])
         ++ EvFork (-1) :: (if ne then [EvPipe (Some (a3, b3))] else [])
         ++ (if no then [EvPipe (Some (a2, b2))] else [])
         ++ (if ni then [EvPipe (Some (a1, b1))] else [])).
    split; [reflexivity|]. subst w3 w2 w1. clear E1 E2 E3.
    destruct ni, no, ne; simpl in *; flatten_fresh; post_fail.
Qed.

(** A launch either fails with a negative code, or it forks: the child
    runs [child_branch] on its copy of the world at the fork, and the
    parent runs [parent_branch]. *)
Lemma start_command_outcome cmd w :
  exists r cmd' w',
    start_command cmd w = Ret (r, cmd') w'
    /\ (r < 0
        \/ exists p a1 b1 a2 b2 a3 b3,
             let ni := needs_in cmd in
             let no := needs_out cmd in
             let ne := needs_err cmd in
             let w1 := alloc_world ni a1 b1 w in
             let w2 := alloc_world no a2 b2 w1 in
             let w3 := piped_world cmd a1 b1 a2 b2 a3 b3 w in
             let cmd3 := piped_cmd cmd b1 a2 a3 in
             r = 0 /\ 0 < p /\ cmd' = set_pid p cmd3
             /\ head (fork_script w) = Some p
             /\ fresh_pipe ni a1 b1 w /\ fresh_pipe no a2 b2 w1
             /\ fresh_pipe ne a3 b3 w2
             /\ parent_branch cmd' ni no ne (a1, b1) (a2, b2) (a3, b3)
                  (forked p
                     (end_of (child_branch (A := Z * child_process)
                                (set_pid 0 cmd3) ni no ne
                                (a1, b1) (a2, b2) (a3, b3) (fork_child w3)))
                     w3)
                = Ret 0 w').
Proof.
  unfold start_command.
  change (negb (no_stdin cmd) && (in_ cmd <? 0)) with (needs_in cmd).
  set (ni := needs_in cmd).
  destruct (maybe_pipe_cases ni w) as [(a1 & b1 & F1 & N1 & E1)|[T1 E1]];
    rewrite (bind_Ret _ _ _ _ _ E1); cbv zeta.
  2:{ exists (- ERR_RUN_COMMAND_PIPE), cmd, (pipe_failed w).
      split; [reflexivity|]. left. reflexivity. }
  simpl snd. simpl fst.
  set (cmd1 := if ni then set_in b1 cmd else cmd).
  assert (negb (no_stdout cmd1) && negb (stdout_to_stderr cmd1) && (out cmd1 <? 0)
          = needs_out cmd) as -> by (subst cmd1; destruct ni; reflexivity).
  set (no := needs_out cmd).
  set (w1 := alloc_world ni a1 b1 w) in *.
  destruct (maybe_pipe_cases no w1) as [(a2 & b2 & F2 & N2 & E2)|[T2 E2]];
    rewrite (bind_Ret _ _ _ _ _ E2); cbv zeta.
  2:{ destruct (fd_only_close_pair (a1, b1) (pipe_failed w1)) as (w' & Ec & _).
      exists (- ERR_RUN_COMMAND_PIPE), cmd1, (if ni then w' else pipe_failed w1).
      split; [|left; reflexivity].
      unfold when. destruct ni.
      - rewrite (bind_Ret _ _ _ _ _ Ec). reflexivity.
      - reflexivity. }
  simpl snd. simpl fst.
  set (cmd2 := if no then set_out a2 cmd1 else cmd1).
  assert (negb (no_stderr cmd2) && (err cmd2 <? 0) = needs_err cmd) as ->
    by (subst cmd2 cmd1; destruct ni, no; reflexivity).
  set (ne := needs_err cmd).
  set (w2 := alloc_world no a2 b2 w1) in *.
  destruct (maybe_pipe_cases ne w2) as [(a3 & b3 & F3 & N3 & E3)|[T3 E3]];
    rewrite (bind_Ret _ _ _ _ _ E3); cbv zeta.
  2:{ assert (fd_only (when ni (close_pair (a1, b1)) ;;; when no (close_pair (a2, b2))))
        as Hc by (destruct ni, no; simpl; auto with fd_only).
      destruct (Hc (pipe_failed w2)) as (w' & Ec & _).
      exists (- ERR_RUN_COMMAND_PIPE), cmd2, w'. split; [|left; reflexivity].
      revert Ec. unfold bind.
      destruct (when ni (close_pair (a1, b1)) (pipe_failed w2)) as [[] wa| | |];
        try discriminate.
      destruct (when no (close_pair (a2, b2)) wa) as [[] wb| | |]; try discriminate.
      intros [= ->]. reflexivity. }
  simpl snd. simpl fst.
  set (cmd3 := if ne then set_err a3 cmd2 else cmd2).
  set (w3 := alloc_world ne a3 b3 w2) in *.
  match goal with |- context [fork ?k w3] =>
    pose proof (fork_cases k w3) as Hf
  end.
  destruct Hf as [(p & Hp & Hh & Ef)|[_ Ef]]; rewrite Ef; clear Ef; cbv beta zeta.
  - replace (p <? 0) with false by (symmetry; apply Z.ltb_ge; lia).
    replace (p =? 0) with false by (symmetry; apply Z.eqb_neq; lia).
    change (0 <? 0) with false. change (0 =? 0) with true. cbv iota.
    match goal with |- context [bind (parent_branch ?c ?x ?y ?z ?f1 ?f2 ?f3) _ ?W] =>
      destruct (parent_branch_closes c x y z f1 f2 f3 W) as (w' & fds & Ep & Fp & Lp)
    end.
    rewrite (bind_Ret _ _ _ _ _ Ep).
    exists 0, (set_pid p cmd3), w'. split; [reflexivity|]. right.
    exists p, a1, b1, a2, b2, a3, b3. cbv zeta.
    split; [reflexivity|]. split; [assumption|]. split; [reflexivity|].
    split.
    { subst w3 w2 w1 ni no ne.
      destruct (needs_err cmd), (needs_out cmd), (needs_in cmd); exact Hh. }
    split; [exact F1|]. split; [exact F2|]. split; [exact F3|]. exact Ep.
  - change (-1 <? 0) with true. cbv iota.
    assert (fd_only (when ni (close_pair (a1, b1)) ;;; when no (close_pair (a2, b2))
                     ;;; when ne (close_pair (a3, b3))))
      as Hc by (destruct ni, no, ne; simpl; auto with fd_only).
    destruct (Hc (fork_failed w3)) as (w' & Ec & _).
    exists (- ERR_RUN_COMMAND_FORK), (set_pid (-1) cmd3), w'.
    split; [|left; reflexivity].
    revert Ec. unfold bind.
    destruct (when ni (close_pair (a1, b1)) (fork_failed w3)) as [[] wa| | |];
      try discriminate.
    destruct (when no (close_pair (a2, b2)) wa) as [[] wb| | |]; try discriminate.
    destruct (when ne (close_pair (a3, b3)) wb) as [[] wc| | |]; try discriminate.
    intros [= ->]. reflexivity.
Qed.

(** *** What the child's wiring does to its descriptor table *)

Lemma fd_acts_ret : fd_acts (fun t => t) (ret tt).
Proof.
  intros w. exists w. split; [reflexivity|]. split; [apply fd_frame_refl | reflexivity].
Qed.

Lemma fd_acts_seq f g m1 m2 :
  fd_acts f m1 -> fd_acts g m2 -> fd_acts (fun t => g (f t)) (m1 ;;; m2).
Proof.
  intros H1 H2 w. destruct (H1 w) as (w1 & E1 & F1 & T1).
  destruct (H2 w1) as (w2 & E2 & F2 & T2). exists w2.
  rewrite (bind_Ret _ _ _ _ _ E1). split; [exact E2|].
  split; [eapply fd_frame_trans; eassumption|]. rewrite T2, T1. reflexivity.
Qed.

Lemma fd_acts_close fd : fd_acts (delete fd) (close fd).
Proof.
  intros w. unfold close. simpl. destruct (fdt (self w) !! fd) eqn:E.
  - eexists. split; [reflexivity|]. split; [|reflexivity].
    eexists _, _, _. reflexivity.
  - eexists. split; [reflexivity|]. split; [eexists _, _, _; reflexivity|].
    simpl. symmetry. apply delete_id. exact E.
Qed.

Lemma fd_acts_dup2 a b : fd_acts (t_dup2 a b) (dup2 a b).
Proof.
  intros w. unfold dup2, t_dup2. simpl. destruct (fdt (self w) !! a) eqn:E.
  - eexists. split; [reflexivity|]. split; [|reflexivity].
    eexists _, _, _. reflexivity.
  - eexists. split; [reflexivity|]. split; [|reflexivity].
    eexists _, _, _. reflexivity.
Qed.

Lemma fd_acts_close_pair fds :
  fd_acts (fun t => delete (snd fds) (delete (fst fds) t)) (close_pair fds).
Proof.
  apply (fd_acts_seq (delete (fst fds)) (delete (snd fds)));
    apply fd_acts_close.
Qed.

Lemma fd_acts_dup_devnull to : fd_acts (t_devnull to) (dup_devnull to).
Proof.
  intros w. unfold dup_devnull, t_devnull.
  set (fd := lowest_free (fdt (self w))).
  assert (open_devnull w
          = Ret fd (set_self (set_fdt (<[fd := DevNull]> (fdt (self w)))
                                      (add_log (EvOpenNull fd) (self w))) w))
    as E1 by reflexivity.
  rewrite (bind_Ret _ _ _ _ _ E1).
  destruct (fd_acts_seq _ _ _ _ (fd_acts_dup2 fd to) (fd_acts_close fd)
              (set_self (set_fdt (<[fd := DevNull]> (fdt (self w)))
                                 (add_log (EvOpenNull fd) (self w))) w))
    as (w2 & E2 & F2 & T2).
  exists w2. split; [exact E2|]. split; [|exact T2].
  eapply fd_frame_trans; [|exact F2]. eexists _, _, _. reflexivity.
Qed.

Lemma fd_acts_wire_stdin cmd ni fi :
  fd_acts (wire_stdin_t cmd ni fi) (wire_stdin cmd ni fi).
Proof.
  unfold wire_stdin, wire_stdin_t.
  destruct (no_stdin cmd); [apply fd_acts_dup_devnull|].
  destruct ni.
  { apply (fd_acts_seq (t_dup2 (fst fi) 0)
             (fun t => delete (snd fi) (delete (fst fi) t)));
      [apply fd_acts_dup2 | apply fd_acts_close_pair]. }
  destruct (negb (in_ cmd =? 0)); [|apply fd_acts_ret].
  apply (fd_acts_seq (t_dup2 (in_ cmd) 0) (delete (in_ cmd)));
    [apply fd_acts_dup2 | apply fd_acts_close].
Qed.

Lemma fd_acts_wire_stdout cmd no fo :
  fd_acts (wire_stdout_t cmd no fo) (wire_stdout cmd no fo).
Proof.
  unfold wire_stdout, wire_stdout_t.
  destruct (no_stdout cmd); [apply fd_acts_dup_devnull|].
  destruct (stdout_to_stderr cmd); [apply fd_acts_dup2|].
  destruct no.
  { apply (fd_acts_seq (t_dup2 (snd fo) 1)
             (fun t => delete (snd fo) (delete (fst fo) t)));
      [apply fd_acts_dup2 | apply fd_acts_close_pair]. }
  destruct (1 <? out cmd); [|apply fd_acts_ret].
  apply (fd_acts_seq (t_dup2 (out cmd) 1) (delete (out cmd)));
    [apply fd_acts_dup2 | apply fd_acts_close].
Qed.

Lemma fd_acts_wire_stderr cmd ne fe :
  fd_acts (wire_stderr_t cmd ne fe) (wire_stderr cmd ne fe).
Proof.
  unfold wire_stderr, wire_stderr_t.
  destruct (no_stderr cmd); [apply fd_acts_dup_devnull|].
  destruct ne; [|apply fd_acts_ret].
  apply (fd_acts_seq (t_dup2 (snd fe) 2)
           (fun t => delete (snd fe) (delete (fst fe) t)));
    [apply fd_acts_dup2 | apply fd_acts_close_pair].
Qed.

(** *** What the child's loop over [cmd->env] does to its environment *)

Lemma apply_env_entry_spec s w :
  exists w', apply_env_entry s w = Ret tt w' /\ env_frame w w'
             /\ environ (self w') = env_step (environ (self w)) s.
Proof.
  unfold apply_env_entry, env_step.
  destruct (strchr s "=") as [[|c v]|] eqn:E.
  - unfold putenv. rewrite E. eexists. split; [reflexivity|].
    split; [|reflexivity]. eexists _, _, _. reflexivity.
  - unfold putenv. rewrite E. eexists. split; [reflexivity|].
    split; [|reflexivity]. eexists _, _, _. reflexivity.
  - unfold unsetenv. destruct s as [|c s'].
    + eexists. split; [reflexivity|]. split; [|reflexivity].
      eexists _, _, _. reflexivity.
    + cbv beta iota zeta. rewrite E. eexists. split; [reflexivity|].
      split; [|reflexivity]. eexists _, _, _. reflexivity.
Qed.

Lemma env_frame_refl w : env_frame w w.
Proof.
  exists (environ (self w)), (errno (self w)), (log (self w)).
  destruct w as [[] ? ? ? ? ? ? ? ?]. reflexivity.
Qed.

Lemma env_frame_trans w1 w2 w3 :
  env_frame w1 w2 -> env_frame w2 w3 -> env_frame w1 w3.
Proof.
  intros (e & er & l & ->) (e' & er' & l' & ->). exists e', er', l'. reflexivity.
Qed.

Lemma apply_env_spec l : forall w,
  exists w', apply_env l w = Ret tt w' /\ env_frame w w'
             /\ environ (self w') = fold_left env_step l (environ (self w)).
Proof.
  induction l as [|s l IH]; intros w; simpl.
  - exists w. split; [reflexivity|]. split; [apply env_frame_refl | reflexivity].
  - destruct (apply_env_entry_spec s w) as (w1 & E1 & F1 & T1).
    destruct (IH w1) as (w2 & E2 & F2 & T2). exists w2.
    rewrite (bind_Ret _ _ _ _ _ E1). split; [exact E2|].
    split; [eapply env_frame_trans; eassumption|]. rewrite T2, T1. reflexivity.
Qed.

(** *** How the child ends *)

Lemma child_branch_end {A} cmd ni no ne fi fo fe wc :
  exists pc,
    end_of (child_branch (A := A) cmd ni no ne fi fo fe wc)
    = (if chdir_fails cmd wc then Exited die_code pc
       else if exec_ok cmd wc then Execd (git_cmd cmd) (argv cmd) pc
       else Exited die_code pc)
    /\ fdt pc = wire_stderr_t cmd ne fe
                  (wire_stdout_t cmd no fo
                     (wire_stdin_t cmd ni fi (fdt (self wc))))
    /\ environ pc = (if chdir_fails cmd wc then environ (self wc)
                     else env_after (env cmd) (environ (self wc)))
    /\ cwd pc = (if chdir_fails cmd wc then cwd (self wc)
                 else match dir cmd with
                      | Some d => d
                      | None => cwd (self wc)
                      end).
Proof.
  unfold child_branch.
  destruct (fd_acts_wire_stdin cmd ni fi wc) as (w1 & E1 & F1 & T1).
  rewrite (bind_Ret _ _ _ _ _ E1).
  destruct (fd_acts_wire_stdout cmd no fo w1) as (w2 & E2 & F2 & T2).
  rewrite (bind_Ret _ _ _ _ _ E2).
  destruct (fd_acts_wire_stderr cmd ne fe w2) as (w3 & E3 & F3 & T3).
  rewrite (bind_Ret _ _ _ _ _ E3).
  rewrite <- T1, <- T2, <- T3.
  pose proof (fd_frame_trans _ _ _ (fd_frame_trans _ _ _ F1 F2) F3) as F.
  clear E1 E2 E3 F1 F2 F3 T1 T2 T3 w1 w2.
  destruct F as (t & er & lg & ->). simpl.
  unfold chdir_fails, exec_ok.
  assert (forall (W : world),
            dirs W = dirs wc -> can_exec W = can_exec wc ->
            exists pc,
              end_of (bind (match env cmd with Some l => apply_env l | None => ret tt end)
                        (fun _ => bind (if git_cmd cmd then execv_git_cmd (argv cmd)
                                        else execvp (head (argv cmd)) (argv cmd))
                                    (fun _ => die (A := A))) W)
              = (if match head (argv cmd) with
                    | Some f => can_exec wc (git_cmd cmd) f
                    | None => false
                    end
                 then Execd (git_cmd cmd) (argv cmd) pc
                 else Exited die_code pc)
              /\ fdt pc = fdt (self W)
              /\ environ pc = env_after (env cmd) (environ (self W))
              /\ cwd pc = cwd (self W)) as Hrest.
  { intros W Hd Hc.
    assert (exists W', (match env cmd with Some l => apply_env l | None => ret tt end) W
                       = Ret tt W' /\ env_frame W W'
                       /\ environ (self W') = env_after (env cmd) (environ (self W)))
      as (W' & Ee & (e' & er' & l' & ->) & Te).
    { destruct (env cmd) as [l|]; simpl.
      - apply apply_env_spec.
      - exists W. split; [reflexivity|]. split; [apply env_frame_refl | reflexivity]. }
    rewrite (bind_Ret _ _ _ _ _ Ee). simpl in Te. rewrite <- Te.
    unfold bind, execv_git_cmd, execvp, die, exit.
    destruct (git_cmd cmd); destruct (head (argv cmd)) as [f|]; simpl;
      rewrite ?Hc; try destruct (can_exec wc _ f); simpl;
      eexists; (split; [reflexivity|]); simpl; auto. }
  destruct (dir cmd) as [d|].
  - set (W0 := set_self (mkProcess t (cwd (self wc)) (environ (self wc)) er lg) wc).
    destruct (bool_decide (d ∈ dirs wc)) eqn:Ed; simpl.
    + assert ((r <- chdir d ;; if negb (r =? 0) then die else ret tt) W0
              = Ret tt (upd_self (fun p => set_cwd d (add_log (EvChdir d true) p)) W0))
        as Ec.
      { unfold bind, chdir. simpl. rewrite Ed. reflexivity. }
      rewrite (bind_Ret _ _ _ _ _ Ec).
      destruct (Hrest (upd_self (fun p => set_cwd d (add_log (EvChdir d true) p)) W0)
                  eq_refl eq_refl) as (pc & Hend & Hf & He & Hc).
      exists pc. split; [exact Hend|]. auto.
    + assert ((r <- chdir d ;; if negb (r =? 0) then die (A := unit) else ret tt) W0
              = Exit die_code
                  (upd_self (fun p => set_errno ENOENT (add_log (EvChdir d false) p)) W0))
        as Ec.
      { unfold bind, chdir. simpl. rewrite Ed. reflexivity. }
      unfold bind at 1. rewrite Ec.
      eexists. split; [reflexivity|]. simpl. auto.
  - destruct (Hrest (set_self (mkProcess t (cwd (self wc)) (environ (self wc)) er lg) wc)
                eq_refl eq_refl) as (pc & Hend & Hf & He & Hc).
    exists pc. split; [exact Hend|]. auto.
Qed.

(** *** A launch that forked *)

Lemma parent_branch_fdt cmd ni no ne fi fo fe w w' :
  parent_branch cmd ni no ne fi fo fe w = Ret 0 w' ->
  fd_frame w w'
  /\ fdt (self w') =
     (let t1 := if ni then delete (fst fi) (fdt (self w))
                else if negb (in_ cmd =? 0) then delete (in_ cmd) (fdt (self w))
                else fdt (self w) in
      let t2 := if no then delete (snd fo) t1
                else if 1 <? out cmd then delete (out cmd) t1 else t1 in
      if ne then delete (snd fe) t2 else t2).
Proof.
  unfold parent_branch.
  assert (fd_acts (fun t => if ni then delete (fst fi) t
                            else if negb (in_ cmd =? 0) then delete (in_ cmd) t else t)
            (if ni then close (fst fi)
             else if negb (in_ cmd =? 0) then close (in_ cmd) else ret tt)) as H1
    by (destruct ni; [|destruct (negb (in_ cmd =? 0))];
        auto using fd_acts_close, fd_acts_ret).
  assert (fd_acts (fun t => if no then delete (snd fo) t
                            else if 1 <? out cmd then delete (out cmd) t else t)
            (if no then close (snd fo)
             else if 1 <? out cmd then close (out cmd) else ret tt)) as H2
    by (destruct no; [|destruct (1 <? out cmd)];
        auto using fd_acts_close, fd_acts_ret).
  assert (fd_acts (fun t => if ne then delete (snd fe) t else t)
            (if ne then close (snd fe) else ret tt)) as H3
    by (destruct ne; auto using fd_acts_close, fd_acts_ret).
  destruct (H1 w) as (w1 & E1 & F1 & T1). rewrite (bind_Ret _ _ _ _ _ E1).
  destruct (H2 w1) as (w2 & E2 & F2 & T2). rewrite (bind_Ret _ _ _ _ _ E2).
  destruct (H3 w2) as (w3 & E3 & F3 & T3). rewrite (bind_Ret _ _ _ _ _ E3).
  intros [= <-]. split.
  - eapply fd_frame_trans; [eapply fd_frame_trans|]; eassumption.
  - cbv zeta. rewrite T3, T2, T1. reflexivity.
Qed.

Lemma piped_world_static cmd a1 b1 a2 b2 a3 b3 w :
  let w3 := piped_world cmd a1 b1 a2 b2 a3 b3 w in
  cwd (self w3) = cwd (self w) /\ environ (self w3) = environ (self w)
  /\ dirs w3 = dirs w /\ can_exec w3 = can_exec w
  /\ prog_status w3 = prog_status w /\ wait_script w3 = wait_script w
  /\ children w3 = children w /\ fork_script w3 = fork_script w.
Proof.
  unfold piped_world.
  destruct (needs_err cmd), (needs_out cmd), (needs_in cmd); simpl; auto 10.
Qed.

Lemma wire_t_piped cmd p b1 a2 a3 fi fo fe t :
  wire_stderr_t (set_pid p (piped_cmd cmd b1 a2 a3)) (needs_err cmd) fe
    (wire_stdout_t (set_pid p (piped_cmd cmd b1 a2 a3)) (needs_out cmd) fo
       (wire_stdin_t (set_pid p (piped_cmd cmd b1 a2 a3)) (needs_in cmd) fi t))
  = child_fdt cmd fi fo fe t.
Proof.
  unfold child_fdt, wire_stderr_t, wire_stdout_t, wire_stdin_t, piped_cmd.
  destruct (needs_in cmd), (needs_out cmd), (needs_err cmd); reflexivity.
Qed.

Lemma start_command_forks cmd w cmd' w' :
  start_command cmd w = Ret (0, cmd') w' ->
  exists p a1 b1 a2 b2 a3 b3 pc,
    let w1 := alloc_world (needs_in cmd) a1 b1 w in
    let w2 := alloc_world (needs_out cmd) a2 b2 w1 in
    let w3 := piped_world cmd a1 b1 a2 b2 a3 b3 w in
    0 < p /\ head (fork_script w) = Some p
    /\ cmd' = set_pid p (piped_cmd cmd b1 a2 a3)
    /\ fresh_pipe (needs_in cmd) a1 b1 w
    /\ fresh_pipe (needs_out cmd) a2 b2 w1
    /\ fresh_pipe (needs_err cmd) a3 b3 w2
    /\ children w' = (p, child_fate cmd w pc) :: children w
    /\ fdt pc = child_fdt cmd (a1, b1) (a2, b2) (a3, b3) (fdt (self w3))
    /\ environ pc = (if chdir_fails cmd w then environ (self w)
                     else env_after (env cmd) (environ (self w)))
    /\ cwd pc = (if chdir_fails cmd w then cwd (self w)
                 else match dir cmd with
                      | Some d => d
                      | None => cwd (self w)
                      end)
    /\ fdt (self w') = parent_fdt cmd (a1, b1) (a2, b2) (a3, b3) (fdt (self w3))
    /\ cwd (self w') = cwd (self w) /\ environ (self w') = environ (self w)
    /\ wait_script w' = wait_script w /\ prog_status w' = prog_status w.
Proof.
  intros Hs.
  destruct (start_command_outcome cmd w) as (r & c & wr & E & [Hneg|H]).
  { rewrite E in Hs. injection Hs as -> _ _. lia. }
  destruct H as (p & a1 & b1 & a2 & b2 & a3 & b3 & H). cbv zeta in H.
  destruct H as (-> & Hp & -> & Hh & F1 & F2 & F3 & Ep).
  rewrite E in Hs. injection Hs as <- <-.
  pose proof (piped_world_static cmd a1 b1 a2 b2 a3 b3 w) as St. cbv zeta in St.
  destruct St as (Scwd & Senv & Sdirs & Sexec & Sprog & Swait & Sch & Sfork).
  destruct (child_branch_end (A := Z * child_process)
              (set_pid 0 (piped_cmd cmd b1 a2 a3))
              (needs_in cmd) (needs_out cmd) (needs_err cmd)
              (a1, b1) (a2, b2) (a3, b3)
              (fork_child (piped_world cmd a1 b1 a2 b2 a3 b3 w)))
    as (pc & Hend & Hfdt & Henv & Hcwd).
  assert (chdir_fails (set_pid 0 (piped_cmd cmd b1 a2 a3))
            (fork_child (piped_world cmd a1 b1 a2 b2 a3 b3 w)) = chdir_fails cmd w)
    as Ecf.
  { unfold chdir_fails, piped_cmd. simpl.
    replace (dirs (piped_world cmd a1 b1 a2 b2 a3 b3 w)) with (dirs w).
    destruct (needs_in cmd), (needs_out cmd), (needs_err cmd); reflexivity. }
  assert (exec_ok (set_pid 0 (piped_cmd cmd b1 a2 a3))
            (fork_child (piped_world cmd a1 b1 a2 b2 a3 b3 w)) = exec_ok cmd w)
    as Eeo.
  { unfold exec_ok, piped_cmd. simpl.
    replace (can_exec (piped_world cmd a1 b1 a2 b2 a3 b3 w)) with (can_exec w).
    destruct (needs_in cmd), (needs_out cmd), (needs_err cmd); reflexivity. }
  assert (env (set_pid 0 (piped_cmd cmd b1 a2 a3)) = env cmd
          /\ dir (set_pid 0 (piped_cmd cmd b1 a2 a3)) = dir cmd
          /\ git_cmd (set_pid 0 (piped_cmd cmd b1 a2 a3)) = git_cmd cmd
          /\ argv (set_pid 0 (piped_cmd cmd b1 a2 a3)) = argv cmd)
    as (Eenv & Edir & Egit & Eargv).
  { unfold piped_cmd.
    destruct (needs_in cmd), (needs_out cmd), (needs_err cmd); simpl; auto. }
  rewrite Ecf, Eeo, Egit, Eargv in Hend.
  rewrite Ecf, Eenv in Henv. rewrite Ecf, Edir in Hcwd.
  rewrite wire_t_piped in Hfdt. simpl in Hfdt, Henv, Hcwd.
  rewrite Senv in Henv. rewrite Scwd in Hcwd.
  apply parent_branch_fdt in Ep as [(t & er & lg & ->) Hpt].
  exists p, a1, b1, a2, b2, a3, b3, pc. cbv zeta.
  split; [assumption|]. split; [assumption|]. split; [reflexivity|].
  split; [assumption|]. split; [assumption|]. split; [assumption|].
  split.
  { simpl. rewrite Hend, Sch. reflexivity. }
  split; [exact Hfdt|]. split; [exact Henv|]. split; [exact Hcwd|].
  split.
  { rewrite Hpt. unfold parent_fdt, piped_cmd. simpl.
    destruct (needs_in cmd), (needs_out cmd), (needs_err cmd); reflexivity. }
  simpl. rewrite Scwd, Senv, Swait, Sprog. auto.
Qed.

(** *** Environment entries *)

Lemma strchr_set_entry k v :
  strchr k "=" = None ->
  strchr (k +:+ String "=" v) "=" = Some (String "=" v)
  /\ env_name (k +:+ String "=" v) = k.
Proof.
  induction k as [|c k IH]; simpl.
  - intros _. split; reflexivity.
  - destruct (Ascii.eqb c "="); [discriminate|].
    intros H. destruct (IH H) as [-> ->]. split; reflexivity.
Qed.

Lemma env_step_set e k v :
  strchr k "=" = None -> env_step e (k +:+ String "=" v) = <[k := v]> e.
Proof.
  intros H. unfold env_step. destruct (strchr_set_entry k v H) as [-> ->].
  reflexivity.
Qed.

Lemma env_step_unset e k :
  k <> EmptyString -> strchr k "=" = None -> env_step e k = delete k e.
Proof.
  intros Hk H. unfold env_step. rewrite H. destruct k; [contradiction|reflexivity].
Qed.

Lemma strchr_env_name s rest :
  strchr s "=" = Some rest -> exists v, rest = String "=" v.
Proof.
  induction s as [|c s IH]; simpl; [discriminate|].
  destruct (Ascii.eqb c "=") eqn:E.
  - intros [= <-]. apply Ascii.eqb_eq in E. subst c. eauto.
  - exact IH.
Qed.

(** Entries that do not define [k] leave an unset [k] unset. *)
Lemma env_step_keeps_unset e s k :
  e !! k = None ->
  strchr s "=" = None \/ env_name s <> k ->
  env_step e s !! k = None.
Proof.
  intros He Hs. unfold env_step.
  destruct (strchr s "=") as [rest|] eqn:E.
  - destruct (strchr_env_name s rest E) as [v ->].
    destruct Hs as [Hs|Hs]; [discriminate|].
    rewrite lookup_insert_ne by assumption. exact He.
  - destruct s; [exact He|].
    rewrite lookup_delete. case_decide; [reflexivity | exact He].
Qed.

Lemma fold_env_keeps_unset post : forall e k,
  e !! k = None ->
  Forall (fun s => strchr s "=" = None \/ env_name s <> k) post ->
  fold_left env_step post e !! k = None.
Proof.
  induction post as [|s post IH]; intros e k He Hall; simpl; [exact He|].
  inversion Hall as [|? ? Hs Hpost]; subst.
  apply IH; [|exact Hpost]. apply env_step_keeps_unset; assumption.
Qed.

(** C8: in a child that got past [chdir], the entries of [cmd->env]
    have been applied one after the other in array order, an entry with
    '=' defining its variable and a bare name removing it, when the
    child calls exec (or dies because exec failed); so "K=v" followed
    later by a bare "K", with no later entry defining K again, leaves K
    unset; and the parent's environment is what it was. *)
Theorem env_applied_in_order cmd w cmd' w' l :
  start_command cmd w = Ret (0, cmd') w' ->
  env cmd = Some l ->
  chdir_fails cmd w = false ->
  exists pc,
    children w' = (pid cmd', child_fate cmd w pc) :: children w
    /\ environ pc = fold_left env_step l (environ (self w))
    /\ (forall e k v, strchr k "=" = None ->
          env_step e (k +:+ String "=" v) = <[k := v]> e
          /\ (k <> EmptyString -> env_step e k = delete k e))
    /\ (forall k v pre mid post,
          l = pre ++ (k +:+ String "=" v) :: mid ++ k :: post ->
          k <> EmptyString -> strchr k "=" = None ->
          Forall (fun s => strchr s "=" = None \/ env_name s <> k) post ->
          environ pc !! k = None)
    /\ environ (self w') = environ (self w).
Proof.
  intros Hs Hl Hcd.
  destruct (start_command_forks cmd w cmd' w' Hs)
    as (p & a1 & b1 & a2 & b2 & a3 & b3 & pc & H). cbv zeta in H.
  destruct H as (Hp & Hh & -> & _ & _ & _ & Hch & _ & Henv & _ & _ & _ & Hpe & _).
  rewrite Hcd, Hl in Henv. simpl in Henv.
  exists pc. split; [exact Hch|]. split; [exact Henv|]. split; [|split; [|exact Hpe]].
  - intros e k v Hk. split; [apply env_step_set; exact Hk|].
    intros Hne. apply env_step_unset; assumption.
  - intros k v pre mid post -> Hne Hk Hpost. rewrite Henv.
    rewrite fold_left_app. simpl. rewrite fold_left_app. simpl.
    apply fold_env_keeps_unset; [|exact Hpost].
    rewrite env_step_unset by assumption. apply lookup_delete_eq.
Qed.

End Launch.

(** ** Reaping a child the kernel knows *)

Section Reaping.
Context {abi : WaitABI} {usage : Usage}.

(** With nothing but interruptions scripted, the wait call ends up
    reaping the child at the head of the process table. *)
Lemma reap_head_child pid e st rest : forall n w,
  wait_script w = replicate n (WFail EINTR) ->
  children w = (pid, e) :: rest ->
  status_of w e = Some st ->
  0 <= pid ->
  exists w'', first_answer pid w (pid, st, w'') /\ children w'' = rest.
Proof.
  induction n as [|n IH]; intros w Hs Hc Hst Hpid.
  - eexists. split.
    + eapply first_answer_now.
      * unfold waitpid. rewrite Hs, Hc. simpl. rewrite Z.eqb_refl. simpl.
        rewrite Hst. reflexivity.
      * intros [Hneg _]. lia.
    + reflexivity.
  - simpl in Hs.
    destruct (IH (set_wait_script (replicate n (WFail EINTR))
                    (upd_self (fun p => set_errno EINTR (add_log (EvWaitpid pid (-1)) p)) w)))
      as (w'' & Hfa & Hch); try assumption; try reflexivity.
    exists w''. split; [|exact Hch].
    eapply first_answer_retry; [| |exact Hfa].
    + unfold waitpid. rewrite Hs. reflexivity.
    + split; [lia | reflexivity].
Qed.

Lemma spec_classify_exit pid c :
  0 <= pid ->
  spec_classify pid pid (W_EXITCODE c)
  = if c mod 256 =? 0 then Success else ChildExit (c mod 256).
Proof.
  intros Hpid. unfold spec_classify.
  replace (pid <? 0) with false by (symmetry; apply Z.ltb_ge; lia).
  rewrite Z.eqb_refl, exited_WIFSIGNALED, exited_WIFEXITED, exited_WEXITSTATUS.
  reflexivity.
Qed.

(** Waiting for a child that called [exit(c)]. *)
Lemma wait_or_whine_exited pid c pc rest n w :
  wait_script w = replicate n (WFail EINTR) ->
  children w = (pid, Exited c pc) :: rest ->
  0 <= pid ->
  exists w'',
    wait_or_whine pid w
    = Ret (if c mod 256 =? 0 then 0 else - (c mod 256)) w''
    /\ children w'' = rest.
Proof.
  intros Hs Hc Hpid.
  destruct (reap_head_child pid (Exited c pc) (W_EXITCODE c) rest n w Hs Hc eq_refl Hpid)
    as (w'' & Hfa & Hch).
  exists w''. split; [|exact Hch].
  rewrite (wait_or_whine_first_answer _ _ _ Hfa). simpl.
  rewrite spec_classify_exit by assumption.
  destruct (c mod 256 =? 0); reflexivity.
Qed.

Lemma die_code_mod : die_code mod 256 = die_code.
Proof. pose proof die_code_reserved. apply Z.mod_small. lia. Qed.

(** C9 (as the code has it): when [cmd->dir] cannot be entered, the
    child dies before it execs, the parent's directory and environment
    are untouched, and reaping the child yields the child-exit error
    that carries [die]'s status: a nonzero value, never 0. *)
Theorem bad_directory_child_dies cmd w cmd' w' n :
  start_command cmd w = Ret (0, cmd') w' ->
  chdir_fails cmd w = true ->
  wait_script w = replicate n (WFail EINTR) ->
  exists pc w'',
    children w' = (pid cmd', Exited die_code pc) :: children w
    /\ cwd pc = cwd (self w)
    /\ cwd (self w') = cwd (self w) /\ environ (self w') = environ (self w)
    /\ finish_command cmd' w' = Ret (- die_code) w''
    /\ run_command cmd w = Ret (- die_code) w''
    /\ - die_code = code_of (ChildExit die_code)
    /\ - die_code <> 0.
Proof.
  intros Hs Hcd Hw.
  destruct (start_command_forks cmd w cmd' w' Hs)
    as (p & a1 & b1 & a2 & b2 & a3 & b3 & pc & H). cbv zeta in H.
  destruct H as (Hp & Hh & -> & _ & _ & _ & Hch & _ & _ & Hcwd & _ & Hpc & Hpe & Hpw & _).
  unfold child_fate in Hch. rewrite Hcd in Hch, Hcwd.
  rewrite <- Hpw in Hw.
  destruct (wait_or_whine_exited p die_code pc (children w) n w' Hw Hch ltac:(lia))
    as (w'' & Hwait & _).
  rewrite die_code_mod in Hwait.
  pose proof die_code_reserved as Hd.
  replace (die_code =? 0) with false in Hwait by (symmetry; apply Z.eqb_neq; lia).
  exists pc, w''. split; [exact Hch|]. split; [exact Hcwd|].
  split; [exact Hpc|]. split; [exact Hpe|].
  split; [exact Hwait|]. split.
  - unfold run_command. rewrite (bind_Ret _ _ _ _ _ Hs). simpl. exact Hwait.
  - split; [reflexivity | lia].
Qed.

End Reaping.

(** ** The convenience wrappers *)

Lemma t_dup2_other a b t k : k <> b -> t_dup2 a b t !! k = t !! k.
Proof.
  intros Hk. unfold t_dup2. destruct (t !! a); [|reflexivity].
  apply lookup_insert_ne. congruence.
Qed.

Lemma t_devnull_other to t k : k <> to -> t_devnull to t !! k = t !! k.
Proof.
  intros Hk. unfold t_devnull, t_dup2. rewrite lookup_insert_eq.
  pose proof (lowest_free_fresh t) as Hf.
  destruct (decide (k = lowest_free t)) as [->|Hne].
  - rewrite lookup_delete_eq. symmetry. exact Hf.
  - rewrite lookup_delete_ne by congruence.
    rewrite lookup_insert_ne by congruence.
    apply lookup_insert_ne. congruence.
Qed.

Lemma t_devnull_bound to t :
  is_Some (t !! to) -> t_devnull to t !! to = Some DevNull.
Proof.
  intros Hto. unfold t_devnull, t_dup2. rewrite lookup_insert_eq.
  rewrite lookup_delete_ne by (apply lowest_free_open_ne; exact Hto).
  apply lookup_insert_eq.
Qed.

Section Wrappers.
Context {abi : WaitABI} {usage : Usage}.

(** C10: the wrappers run [run_command] on a zeroed configuration, so
    [in], [out] and [err] are 0 and no pipe is needed; the launch then
    makes one system call in the parent, the [fork]: no [pipe], no
    [close], and the parent's descriptor table is as before.  In the
    child a stream whose field is 0 and that no flag suppresses or
    redirects is neither piped, nor rebound, nor sent to the null
    device: its descriptor is the one the parent had at the launch. *)
Theorem wrappers_inherit_streams argv opt d e w :
  let cmd := wrapper_cmd argv opt d e in
  run_command_v_opt argv opt = run_command (wrapper_cmd argv opt None None)
  /\ run_command_v_opt_cd argv opt d = run_command (wrapper_cmd argv opt d None)
  /\ run_command_v_opt_cd_env argv opt d e = run_command cmd
  /\ in_ cmd = 0 /\ out cmd = 0 /\ err cmd = 0
  /\ needs_in cmd = false /\ needs_out cmd = false /\ needs_err cmd = false
  /\ exists r cmd' w' q,
       start_command cmd w = Ret (r, cmd') w'
       /\ in_ cmd' = 0 /\ out cmd' = 0 /\ err cmd' = 0
       /\ log (self w') = EvFork q :: log (self w)
       /\ n_pipes w' = n_pipes w /\ pipe_script w' = pipe_script w
       /\ fdt (self w') = fdt (self w)
       /\ (r = 0 ->
           exists pc,
             children w' = (pid cmd', child_fate cmd w pc) :: children w
             /\ fdt pc !! 2 = fdt (self w) !! 2
             /\ (stdout_to_stderr cmd = false -> fdt pc !! 1 = fdt (self w) !! 1)
             /\ (no_stdin cmd = false -> fdt pc !! 0 = fdt (self w) !! 0)).
Proof.
  cbv zeta.
  split; [reflexivity|]. split; [reflexivity|]. split; [reflexivity|].
  split; [reflexivity|]. split; [reflexivity|]. split; [reflexivity|].
  assert (needs_in (wrapper_cmd argv opt d e) = false) as Hni
    by (unfold needs_in; simpl; apply andb_false_r).
  assert (needs_out (wrapper_cmd argv opt d e) = false) as Hno
    by (unfold needs_out; simpl; apply andb_false_r).
  assert (needs_err (wrapper_cmd argv opt d e) = false) as Hne by reflexivity.
  split; [exact Hni|]. split; [exact Hno|]. split; [exact Hne|].
  set (cmd := wrapper_cmd argv opt d e) in *.
  assert (exists r cmd' w' q,
             start_command cmd w = Ret (r, cmd') w'
             /\ in_ cmd' = 0 /\ out cmd' = 0 /\ err cmd' = 0
             /\ log (self w') = EvFork q :: log (self w)
             /\ n_pipes w' = n_pipes w /\ pipe_script w' = pipe_script w
             /\ fdt (self w') = fdt (self w)) as (r & cmd' & w' & q & Hs & H).
  { unfold start_command.
    change (negb (no_stdin cmd) && (in_ cmd <? 0)) with (needs_in cmd).
    rewrite Hni. unfold bind at 1. unfold ret at 1. cbv iota zeta.
    change (negb (no_stdout cmd) && negb (stdout_to_stderr cmd) && (out cmd <? 0))
      with (needs_out cmd).
    rewrite Hno. unfold bind at 1. unfold ret at 1. cbv iota zeta.
    change (negb (no_stderr cmd) && (err cmd <? 0)) with (needs_err cmd).
    rewrite Hne. unfold bind at 1. unfold ret at 1. cbv iota zeta.
    match goal with |- context [fork ?k w] => pose proof (fork_cases k w) as Hf end.
    destruct Hf as [(p & Hp & _ & Ef)|[_ Ef]]; rewrite Ef; clear Ef; cbv beta zeta.
    - replace (p <? 0) with false by (symmetry; apply Z.ltb_ge; lia).
      replace (p =? 0) with false by (symmetry; apply Z.eqb_neq; lia).
      eexists 0, _, _, p. split; [reflexivity|]. simpl. auto 10.
    - eexists _, _, _, (-1). split; [reflexivity|]. simpl. auto 10. }
  exists r, cmd', w', q. split; [exact Hs|].
  destruct H as (H1 & H2 & H3 & H4 & H5 & H6 & H7).
  repeat (split; [assumption|]).
  intros ->.
  destruct (start_command_forks cmd w cmd' w' Hs)
    as (p & a1 & b1 & a2 & b2 & a3 & b3 & pc & H). cbv zeta in H.
  destruct H as (Hp & Hh & -> & _ & _ & _ & Hch & Hfd & _).
  exists pc. split; [exact Hch|].
  unfold piped_world in Hfd. rewrite Hni, Hno, Hne in Hfd. simpl in Hfd.
  unfold child_fdt, wire_stderr_t, wire_stdout_t, wire_stdin_t in Hfd.
  rewrite Hni, Hno, Hne in Hfd. simpl in Hfd.
  rewrite Hfd. clear. subst cmd. simpl (stdout_to_stderr _). simpl (no_stdin _).
  destruct (negb (Z.land opt RUN_COMMAND_NO_STDIN =? 0));
    destruct (negb (Z.land opt RUN_COMMAND_STDOUT_TO_STDERR =? 0));
    repeat split; intros; try discriminate;
    rewrite ?t_dup2_other, ?t_devnull_other by lia; reflexivity.
Qed.

End Wrappers.

(** ** The async worker *)

Section Async.
Context {abi : WaitABI} {usage : Usage} {D : Type}.

Lemma start_async_forks (a : async D) w rest p fs :
  pipe_script w = true :: rest ->
  fork_script w = p :: fs ->
  0 < p ->
  exists rd wr,
    fdt (self w) !! rd = None /\ fdt (self w) !! wr = None /\ rd <> wr
    /\ start_async a w
       = Ret (0, set_a_out rd (set_a_pid p a))
             (async_started rd wr p
                (end_of (bind (proc a wr (data a))
                           (fun r => exit (A := Z * async D)
                                       (if negb (r =? 0) then 1 else 0))
                           (worker_world rd wr w)))
                w).
Proof.
  intros Hps Hfs Hp. unfold start_async.
  destruct (pipe_cases w) as [(rd & wr & Hrd & Hwr & E)|E].
  2:{ exfalso. revert E. unfold pipe. rewrite Hps. discriminate. }
  apply lookup_insert_None in Hwr as [Hwr Hne].
  exists rd, wr. split; [exact Hrd|]. split; [exact Hwr|]. split; [exact Hne|].
  rewrite (bind_Ret _ _ _ _ _ E). cbv iota beta.
  match goal with |- context [fork ?k ?W] => pose proof (fork_cases k W) as Hf end.
  destruct Hf as [(p' & Hp' & Hh & Ef)|[Hh _]].
  2:{ exfalso. specialize (Hh p). simpl in Hh. rewrite Hfs in Hh.
      specialize (Hh eq_refl). lia. }
  simpl in Hh. rewrite Hfs in Hh. injection Hh as <-.
  rewrite Ef. clear Ef. cbv beta zeta.
  replace (p <? 0) with false by (symmetry; apply Z.ltb_ge; lia).
  replace (p =? 0) with false by (symmetry; apply Z.eqb_neq; lia).
  change (0 <? 0) with false. change (0 =? 0) with true. cbv iota.
  simpl fst. simpl snd.
  rewrite (bind_Ret _ _ _ _ _ (close_open rd (fork_child (alloc_world true rd wr w))
                                 ltac:(simpl; rewrite lookup_insert_ne by congruence;
                                       rewrite lookup_insert_eq; eauto))).
  match goal with |- context [bind (close wr) _ ?W] =>
    rewrite (bind_Ret _ _ _ _ _ (close_open wr W
                                   ltac:(simpl; rewrite lookup_insert_eq; eauto)))
  end.
  reflexivity.
Qed.

(** C6: when the kernel grants the pipe and the fork, [start_async]
    makes exactly one pipe and one child; the child closes the read
    end, calls the producer with the write end and the caller's datum,
    and exits with 0 if the producer returned 0 and with 1 otherwise;
    the parent keeps the read end in [out], closes the write end and
    returns 0. *)
Theorem start_async_runs_producer (a : async D) w rest p fs :
  pipe_script w = true :: rest ->
  fork_script w = p :: fs ->
  0 < p ->
  exists rd wr c w',
    start_async a w = Ret (0, set_a_out rd (set_a_pid p a)) w'
    /\ n_pipes w' = S (n_pipes w)
    /\ log (self w') = [EvClose wr; EvFork p; EvPipe (Some (rd, wr))] ++ log (self w)
    /\ fdt (self w') = <[rd := PipeR (n_pipes w)]> (fdt (self w))
    /\ children w' = (p, c) :: children w
    /\ fdt (self (worker_world rd wr w)) = <[wr := PipeW (n_pipes w)]> (fdt (self w))
    /\ log (self (worker_world rd wr w))
       = [EvClose rd; EvFork 0; EvPipe (Some (rd, wr))] ++ log (self w)
    /\ (forall r wc, proc a wr (data a) (worker_world rd wr w) = Ret r wc ->
          c = Exited (if r =? 0 then 0 else 1) (self wc)).
Proof.
  intros Hps Hfs Hp.
  destruct (start_async_forks a w rest p fs Hps Hfs Hp)
    as (rd & wr & Hrd & Hwr & Hne & E).
  eexists rd, wr, _, _. split; [exact E|].
  split; [reflexivity|]. split; [reflexivity|].
  split.
  { simpl. apply map_eq. intros k.
    destruct (decide (k = wr)), (decide (k = rd)); simplify_map_eq; done. }
  split; [reflexivity|].
  split.
  { simpl. apply map_eq. intros k.
    destruct (decide (k = wr)), (decide (k = rd)); simplify_map_eq; done. }
  split; [reflexivity|].
  intros r wc Hr. unfold bind. rewrite Hr. simpl.
  destruct (r =? 0); reflexivity.
Qed.

Lemma finish_async_result (a : async D) w r w1 :
  wait_or_whine (a_pid a) w = Ret r w1 ->
  finish_async a w = Ret (if r =? 0 then 0 else error_ret) w1.
Proof.
  intros H. unfold finish_async. rewrite (bind_Ret _ _ _ _ _ H).
  destruct (r =? 0); reflexivity.
Qed.

(** C7: [finish_async] returns [error]'s negative value exactly when
    [wait_or_whine] on the worker's pid returns something other than 0,
    and 0 otherwise; so after a successful [start_async], once the
    worker is reaped, it returns 0 if the producer returned 0 and the
    negative value if the producer returned anything else. *)
Theorem finish_async_reports_worker (a : async D) w rest p fs n r :
  pipe_script w = true :: rest ->
  fork_script w = p :: fs ->
  0 < p ->
  wait_script w = replicate n (WFail EINTR) ->
  (forall fd w0, exists wc, proc a fd (data a) w0 = Ret r wc) ->
  (forall a0 w0 r0 w1,
      wait_or_whine (a_pid a0) w0 = Ret r0 w1 ->
      exists v, finish_async (D := D) a0 w0 = Ret v w1
                /\ (v < 0 <-> r0 <> 0) /\ (v = 0 <-> r0 = 0))
  /\ exists a' w' v w'',
       start_async a w = Ret (0, a') w'
       /\ finish_async a' w' = Ret v w''
       /\ (r = 0 -> v = 0)
       /\ (r <> 0 -> v < 0 /\ v = error_ret).
Proof.
  intros Hps Hfs Hp Hws Hprod.
  pose proof error_ret_negative as Hneg.
  split.
  { intros a0 w0 r0 w1 H. eexists. split; [apply finish_async_result; exact H|].
    destruct (r0 =? 0) eqn:E0.
    - apply Z.eqb_eq in E0. lia.
    - apply Z.eqb_neq in E0. lia. }
  destruct (start_async_forks a w rest p fs Hps Hfs Hp)
    as (rd & wr & Hrd & Hwr & Hne & E).
  destruct (Hprod wr (worker_world rd wr w)) as (wc & Hr).
  unfold bind in E. rewrite Hr in E. simpl in E.
  match type of E with _ = Ret _ ?W => set (w' := W) in * end.
  destruct (wait_or_whine_exited p (if negb (r =? 0) then 1 else 0) (self wc)
              (children w) n w' Hws eq_refl ltac:(lia)) as (w'' & Hw & _).
  eexists _, w', _, w''. split; [exact E|].
  split; [apply finish_async_result; exact Hw|].
  destruct (r =? 0) eqn:E0; simpl.
  - split; [reflexivity|]. apply Z.eqb_eq in E0. intros; contradiction.
  - apply Z.eqb_neq in E0. split; [intros; contradiction|]. intros _. lia.
Qed.

End Async.

(** ** Suppressed streams *)

(** In each of the three wiring steps the suppress flag is tested
    first: whatever the explicit descriptor, the redirect flag and the
    pipe, a suppressed stream ends up on the null device, provided its
    descriptor is open when the step runs; and a non-negative field
    means no pipe for the stream. *)
Lemma suppression_wins_when_open cmd ni no ne fi fo fe t :
  (no_stdin cmd = true -> is_Some (t !! 0) ->
   wire_stdin_t cmd ni fi t !! 0 = Some DevNull)
  /\ (no_stdout cmd = true -> is_Some (t !! 1) ->
      wire_stdout_t cmd no fo t !! 1 = Some DevNull)
  /\ (no_stderr cmd = true -> is_Some (t !! 2) ->
      wire_stderr_t cmd ne fe t !! 2 = Some DevNull)
  /\ (0 <= in_ cmd -> needs_in cmd = false)
  /\ (0 <= out cmd -> needs_out cmd = false)
  /\ (0 <= err cmd -> needs_err cmd = false).
Proof.
  unfold wire_stdin_t, wire_stdout_t, wire_stderr_t, needs_in, needs_out, needs_err.
  repeat split.
  - intros -> H. apply t_devnull_bound. exact H.
  - intros -> H. apply t_devnull_bound. exact H.
  - intros -> H. apply t_devnull_bound. exact H.
  - intros H. replace (in_ cmd <? 0) with false by (symmetry; apply Z.ltb_ge; lia).
    apply andb_false_r.
  - intros H. replace (out cmd <? 0) with false by (symmetry; apply Z.ltb_ge; lia).
    apply andb_false_r.
  - intros H. replace (err cmd <? 0) with false by (symmetry; apply Z.ltb_ge; lia).
    apply andb_false_r.
Qed.

(** ** Descriptors the wiring leaves alone *)

Lemma t_dup2_bound a b t o : t !! a = Some o -> t_dup2 a b t !! b = Some o.
Proof. intros H. unfold t_dup2. rewrite H. apply lookup_insert_eq. Qed.

Lemma lookup_delete_pair (t : gmap Z obj) a b k :
  delete b (delete a t) !! k = if (k =? a) || (k =? b) then None else t !! k.
Proof.
  destruct (Z.eqb_spec k b) as [->|Hb].
  - rewrite orb_true_r. apply lookup_delete_eq.
  - rewrite lookup_delete_ne by congruence. rewrite orb_false_r.
    destruct (Z.eqb_spec k a) as [->|Ha].
    + apply lookup_delete_eq.
    + apply lookup_delete_ne. congruence.
Qed.

Lemma wire_stdin_t_other cmd ni fi t k :
  needs_in cmd = ni -> k <> 0 -> (0 < in_ cmd -> k <> in_ cmd) ->
  wire_stdin_t cmd ni fi t !! k
  = if closed_in ni fi k then None else t !! k.
Proof.
  intros <- H0 Hin. unfold wire_stdin_t, needs_in, closed_in.
  destruct (no_stdin cmd); simpl; [apply t_devnull_other; exact H0|].
  destruct (Z.ltb_spec (in_ cmd) 0); simpl.
  - rewrite lookup_delete_pair, t_dup2_other by exact H0. reflexivity.
  - destruct (Z.eqb_spec (in_ cmd) 0); [reflexivity|]. simpl.
    rewrite lookup_delete_ne by (apply not_eq_sym, Hin; lia).
    apply t_dup2_other. exact H0.
Qed.

Lemma wire_stdout_t_other cmd no fo t k :
  needs_out cmd = no -> k <> 1 -> (1 < out cmd -> k <> out cmd) ->
  wire_stdout_t cmd no fo t !! k
  = if closed_in no fo k then None else t !! k.
Proof.
  intros <- H1 Hout. unfold wire_stdout_t, needs_out, closed_in.
  destruct (no_stdout cmd); simpl; [apply t_devnull_other; exact H1|].
  destruct (stdout_to_stderr cmd); simpl; [apply t_dup2_other; exact H1|].
  destruct (out cmd <? 0); simpl.
  - rewrite lookup_delete_pair, t_dup2_other by exact H1. reflexivity.
  - destruct (Z.ltb_spec 1 (out cmd)); [|reflexivity].
    rewrite lookup_delete_ne by (apply not_eq_sym; auto). apply t_dup2_other. exact H1.
Qed.

Lemma wire_stderr_t_other cmd ne fe t k :
  needs_err cmd = ne -> k <> 2 ->
  wire_stderr_t cmd ne fe t !! k
  = if closed_in ne fe k then None else t !! k.
Proof.
  intros <- H2. unfold wire_stderr_t, needs_err, closed_in.
  destruct (no_stderr cmd); simpl; [apply t_devnull_other; exact H2|].
  destruct (err cmd <? 0); simpl; [|reflexivity].
  rewrite lookup_delete_pair, t_dup2_other by exact H2. reflexivity.
Qed.

Lemma wire_stdin_t_pipe cmd fi t o :
  needs_in cmd = true -> fst fi <> 0 -> snd fi <> 0 -> t !! fst fi = Some o ->
  wire_stdin_t cmd true fi t !! 0 = Some o.
Proof.
  unfold needs_in, wire_stdin_t. intros [Hn _]%andb_prop Ha Hb Ho.
  apply negb_true_iff in Hn. rewrite Hn.
  rewrite !lookup_delete_ne by assumption. apply t_dup2_bound. exact Ho.
Qed.

Lemma wire_stdout_t_pipe cmd fo t o :
  needs_out cmd = true -> fst fo <> 1 -> snd fo <> 1 -> t !! snd fo = Some o ->
  wire_stdout_t cmd true fo t !! 1 = Some o.
Proof.
  unfold needs_out, wire_stdout_t. intros [[Hn Hs]%andb_prop _]%andb_prop Ha Hb Ho.
  apply negb_true_iff in Hn, Hs. rewrite Hn, Hs.
  rewrite !lookup_delete_ne by assumption. apply t_dup2_bound. exact Ho.
Qed.

Lemma wire_stderr_t_pipe cmd fe t o :
  needs_err cmd = true -> fst fe <> 2 -> snd fe <> 2 -> t !! snd fe = Some o ->
  wire_stderr_t cmd true fe t !! 2 = Some o.
Proof.
  unfold needs_err, wire_stderr_t. intros [Hn _]%andb_prop Ha Hb Ho.
  apply negb_true_iff in Hn. rewrite Hn.
  rewrite !lookup_delete_ne by assumption. apply t_dup2_bound. exact Ho.
Qed.

Lemma closed_in_false need a b k :
  (need = true -> k <> a /\ k <> b) -> closed_in need (a, b) k = false.
Proof.
  unfold closed_in. destruct need; [|reflexivity]. intros H.
  destruct (H eq_refl) as [Ha Hb]. simpl.
  apply Z.eqb_neq in Ha, Hb. rewrite Ha, Hb. reflexivity.
Qed.

Ltac fresh_facts :=
  repeat match goal with
  | H : fresh_pipe true _ _ _ |- _ => specialize (H eq_refl)
  | H : fresh_pipe false _ _ _ |- _ => clear H
  | H : true = true -> _ |- _ => specialize (H eq_refl)
  | H : false = true -> _ |- _ => clear H
  | H : _ /\ _ |- _ => destruct H
  | H : <[_:=_]> _ !! _ = None |- _ => apply lookup_insert_None in H
  end.

Ltac key_cases k :=
  repeat match goal with
  | H : _ !! ?a = None |- _ =>
      lazymatch goal with
      | _ : k = a |- _ => fail
      | _ : k <> a |- _ => fail
      | _ => destruct (decide (k = a))
      end
  end.

Ltac open_facts :=
  repeat match goal with
  | H : ?P -> is_Some _, H' : ?P |- _ => specialize (H H')
  | H : ?x <> 0 -> false = false -> is_Some _ |- _ =>
      first [ specialize (H ltac:(lia) eq_refl) | clear H ]
  | H : _ -> true = false -> _ |- _ => clear H
  | H : is_Some _ |- _ => destruct H
  end.

Ltac ne_tac :=
  first [ assumption | apply not_eq_sym; assumption | discriminate
        | let E := fresh in intro E; open_facts; subst; congruence
        | lia ].

Ltac not_closed :=
  rewrite closed_in_false
    by (let H := fresh in intros H; first [discriminate H | split; ne_tac]).

Ltac piped_lookup :=
  repeat (rewrite lookup_delete_ne by ne_tac);
  repeat (rewrite lookup_insert_ne by ne_tac);
  first [ apply lookup_insert_eq | assumption ].

Ltac use_flags :=
  repeat match goal with
  | H : true = true -> _ |- _ => specialize (H eq_refl)
  | H : false = false -> _ |- _ => specialize (H eq_refl)
  | H : false = true -> _ |- _ => clear H
  | H : true = false -> _ |- _ => clear H
  | H : ?P -> _, H' : ?P |- _ => specialize (H H')
  end.

Lemma needs_in_negative cmd : needs_in cmd = true -> in_ cmd < 0.
Proof. unfold needs_in. intros [_ H]%andb_prop. apply Z.ltb_lt. exact H. Qed.

Lemma needs_out_negative cmd : needs_out cmd = true -> out cmd < 0.
Proof. unfold needs_out. intros [_ H]%andb_prop. apply Z.ltb_lt. exact H. Qed.

(** ** Explicit descriptors *)

Section ExplicitDescriptors.
Context {usage : Usage}.

Lemma child_frame_in_out cmd a1 b1 a2 b2 a3 b3 w k :
  fresh_pipe (needs_in cmd) a1 b1 w ->
  fresh_pipe (needs_out cmd) a2 b2 (alloc_world (needs_in cmd) a1 b1 w) ->
  needs_err cmd = false ->
  k <> 0 -> k <> 1 -> (0 < in_ cmd -> k <> in_ cmd) -> (1 < out cmd -> k <> out cmd) ->
  wire_stdout_t cmd (needs_out cmd) (a2, b2)
    (wire_stdin_t cmd (needs_in cmd) (a1, b1)
       (fdt (self (piped_world cmd a1 b1 a2 b2 a3 b3 w)))) !! k
  = fdt (self w) !! k.
Proof.
  intros F1 F2 Ne H0 H1 Hin Hout.
  rewrite (wire_stdout_t_other cmd _ _ _ k eq_refl) by assumption.
  rewrite (wire_stdin_t_other cmd _ _ _ k eq_refl) by assumption.
  unfold piped_world, closed_in, fresh_pipe in *. rewrite Ne. clear Hin Hout.
  destruct (needs_in cmd), (needs_out cmd); simpl in *; fresh_facts;
    repeat match goal with
    | |- context [k =? ?a] => destruct (Z.eqb_spec k a); subst; simpl
    end; simplify_map_eq; congruence.
Qed.

(** C5 (as the code has it): [in] and [out] can be pre-opened
    descriptors, [err] cannot.  With no flag set and [in], [out], [err]
    all non-negative, a positive [in] that is open becomes the child's
    stdin and an open [out] above 1, different from [in], the child's
    stdout, and the parent closes both.  For [err] no such branch
    exists: whenever stderr is not suppressed, a non-negative [err] only
    keeps the launch from making a pipe for stderr and stays in [cmd];
    the child's descriptor 2 is the one the parent had at launch, not
    [err], provided neither [in] nor [out] is 2 (which the child would
    move away and close); an [err] above 1 and different from [in] and
    [out] is in the child what it was at launch, and an [err] that is
    open at launch and different from [in] and [out] is in the parent
    what it was. *)
Theorem explicit_err_is_ignored cmd w cmd' w' :
  start_command cmd w = Ret (0, cmd') w' ->
  no_stderr cmd = false -> 0 <= err cmd ->
  exists pc,
    children w' = (pid cmd', child_fate cmd w pc) :: children w
    /\ needs_err cmd = false /\ err cmd' = err cmd
    /\ (in_ cmd <> 2 -> out cmd <> 2 -> fdt pc !! 2 = fdt (self w) !! 2)
    /\ (1 < err cmd -> err cmd <> in_ cmd -> err cmd <> out cmd ->
          fdt pc !! err cmd = fdt (self w) !! err cmd)
    /\ (is_Some (fdt (self w) !! err cmd) ->
        err cmd <> in_ cmd -> err cmd <> out cmd ->
          fdt (self w') !! err cmd = fdt (self w) !! err cmd)
    /\ (no_stdin cmd = false -> no_stdout cmd = false ->
        stdout_to_stderr cmd = false -> 0 <= in_ cmd -> 0 <= out cmd ->
        (forall o, 0 < in_ cmd -> fdt (self w) !! in_ cmd = Some o ->
           fdt pc !! 0 = Some o /\ fdt (self w') !! in_ cmd = None)
        /\ (forall o, 1 < out cmd -> out cmd <> in_ cmd ->
              fdt (self w) !! out cmd = Some o ->
              fdt pc !! 1 = Some o /\ fdt (self w') !! out cmd = None)).
Proof.
  intros Hs Hne Herr.
  destruct (start_command_forks cmd w cmd' w' Hs)
    as (p & a1 & b1 & a2 & b2 & a3 & b3 & pc & H). cbv zeta in H.
  destruct H as (Hp & Hh & -> & F1 & F2 & _ & Hch & Hfd & _ & _ & Hpf & _).
  assert (needs_err cmd = false) as Nerr
    by (unfold needs_err; rewrite Hne; simpl; apply Z.ltb_ge; lia).
  unfold child_fdt, wire_stderr_t in Hfd. rewrite Hne, Nerr in Hfd.
  exists pc. split; [exact Hch|]. split; [exact Nerr|].
  split; [unfold piped_cmd; rewrite Nerr;
          destruct (needs_in cmd), (needs_out cmd); reflexivity|].
  split; [|split; [|split]].
  - intros I2 O2. rewrite Hfd.
    apply child_frame_in_out; auto; discriminate.
  - intros H1 Hi Ho. rewrite Hfd.
    apply child_frame_in_out; auto; lia.
  - intros Hopen Hi Ho. rewrite Hpf. clear Hfd Hpf Hs Hch.
    pose proof (needs_in_negative cmd) as Nin.
    pose proof (needs_out_negative cmd) as Nout.
    unfold parent_fdt, piped_world, fresh_pipe in *. rewrite Nerr.
    destruct (needs_in cmd), (needs_out cmd); simpl in *; fresh_facts;
      repeat match goal with
      | |- context [in_ ?c =? 0] => destruct (Z.eqb_spec (in_ c) 0); simpl
      | |- context [1 <? out ?c] => destruct (Z.ltb_spec 1 (out c)); simpl
      end;
      repeat (rewrite lookup_delete_ne by ne_tac);
      repeat (rewrite lookup_insert_ne by ne_tac); reflexivity.
  - intros Hni Hno Hse Hin Hout.
    assert (needs_in cmd = false) as Nin
      by (unfold needs_in; rewrite Hni; simpl; apply Z.ltb_ge; lia).
    assert (needs_out cmd = false) as Nout
      by (unfold needs_out; rewrite Hno, Hse; simpl; apply Z.ltb_ge; lia).
    unfold piped_world in Hfd, Hpf. rewrite Nin, Nout, Nerr in Hfd, Hpf.
    simpl in Hfd, Hpf.
    unfold wire_stdout_t, wire_stdin_t in Hfd.
    rewrite ?Nin, ?Nout, ?Hni, ?Hno, ?Hse in Hfd.
    unfold parent_fdt in Hpf. rewrite Nin, Nout, Nerr in Hpf. cbv zeta in Hpf.
    rewrite Hfd, Hpf. clear Hfd Hpf Hch Hs F1 F2.
    set (t := fdt (self w)).
    destruct (Z.eqb_spec (in_ cmd) 0) as [Ei|Ei];
      destruct (Z.ltb_spec 1 (out cmd)) as [Eo|Eo]; simpl.
    + split; [intros; lia|].
      intros o _ _ Ho. split; [|apply lookup_delete_eq].
      rewrite lookup_delete_ne by lia. apply t_dup2_bound. exact Ho.
    + split; intros; lia.
    + split.
      { intros o _ Ho. split.
        - rewrite lookup_delete_ne by lia. rewrite t_dup2_other by lia.
          rewrite lookup_delete_ne by lia. apply t_dup2_bound. exact Ho.
        - rewrite lookup_delete. case_decide; [reflexivity|].
          apply lookup_delete_eq. }
      intros o _ Hne' Ho. split; [|apply lookup_delete_eq].
      rewrite lookup_delete_ne by lia. apply t_dup2_bound.
      rewrite lookup_delete_ne by lia. rewrite t_dup2_other by lia. exact Ho.
    + split; [|intros; lia].
      intros o _ Ho. split; [|apply lookup_delete_eq].
      rewrite lookup_delete_ne by lia. apply t_dup2_bound. exact Ho.
Qed.

End ExplicitDescriptors.

(** ** Concrete launches (Linux wait statuses, git's [usage.c]) *)

Example run_true : returned (run_command_v_opt ["true"%string] 0 demo_world) = Some 0.
Proof. vm_compute. reflexivity. Qed.

Example run_false : returned (run_command_v_opt ["false"%string] 0 demo_world) = Some (-1).
Proof. vm_compute. reflexivity. Qed.

Example run_missing_program :
  returned (run_command_v_opt ["no-such-program"%string] 0 demo_world) = Some (-128).
Proof. vm_compute. reflexivity. Qed.

Example spec_classify_priority :
  spec_classify 100 101 2 = ProtocolError
  /\ spec_classify 100 100 2 = SignaledTermination
  /\ spec_classify 100 100 4991 = AbnormalTermination
  /\ spec_classify 100 100 0 = Success
  /\ spec_classify 100 100 (linux_W_EXITCODE 42) = ChildExit 42.
Proof. vm_compute. repeat split; reflexivity. Qed.

(** Suppressing stderr alone works as intended. *)
Example suppressed_stderr_alone :
  launched_child_fd
    (mkChild ["true"%string] 0 0 0 0 None None false false true false false)
    demo_world 2 = Some (Some DevNull).
Proof. vm_compute. reflexivity. Qed.

(** C3, a launch on which the code does not do what the claim says:
    stdout is given as the explicit descriptor 2 and stderr is
    suppressed.  The child runs [dup2(2, 1); close(2)] for stdout; then
    [dup_devnull(2)] opens the null device on the lowest free
    descriptor, which is 2 itself, so that [dup2(2, 2)] does nothing and
    [close(2)] closes it again: the child execs with descriptor 2
    closed, not on the null device.  The same happens to descriptor 0
    when stdin is suppressed in a process that was started with
    descriptor 0 closed. *)
Theorem suppressed_stream_left_closed :
  (no_stderr out2_quiet_cmd = true
   /\ fdt (self demo_world) !! 2 = Some (File "tty")
   /\ returned (start_command out2_quiet_cmd demo_world)
      = Some (0, set_pid 100 out2_quiet_cmd)
   /\ launched_child_fd out2_quiet_cmd demo_world 2 = Some None)
  /\ (no_stdin (prepare_run_command_v_opt ["true"%string] RUN_COMMAND_NO_STDIN) = true
      /\ fdt (self no_stdin_world) !! 0 = None
      /\ launched_child_fd
           (prepare_run_command_v_opt ["true"%string] RUN_COMMAND_NO_STDIN)
           no_stdin_world 0 = Some None).
Proof. vm_compute. repeat split; reflexivity. Qed.

(** C5, the claim refuted: with [err] set to the open descriptor 5 and
    no flag set, the child's descriptor 2 is still the terminal, not
    what descriptor 5 refers to; the same descriptor given as [in]
    does become the child's stdin. *)
Lemma explicit_err_not_bound :
  fdt (self log_world) !! 5 = Some (File "errors.log")
  /\ launched_child_fd err5_cmd log_world 2 = Some (Some (File "tty"))
  /\ launched_child_fd err5_cmd log_world 2 <> Some (fdt (self log_world) !! 5)
  /\ launched_child_fd in5_cmd log_world 0 = Some (fdt (self log_world) !! 5).
Proof. vm_compute. repeat split; try reflexivity. discriminate. Qed.

Lemma explicit_err_is_ignored_witness :
  start_command err5_cmd log_world
    = Ret (0, set_pid 100 err5_cmd) (world_after (start_command err5_cmd log_world) log_world)
  /\ exists pc,
       last_child (world_after (start_command err5_cmd log_world) log_world) = Some pc
       /\ fdt pc !! 2 = Some (File "tty")
       /\ fdt pc !! 5 = Some (File "errors.log")
       /\ fdt (self (world_after (start_command err5_cmd log_world) log_world)) !! 5
          = Some (File "errors.log").
Proof.
  assert (start_command err5_cmd log_world
          = Ret (0, set_pid 100 err5_cmd)
                (world_after (start_command err5_cmd log_world) log_world)) as Hs
    by (vm_compute; reflexivity).
  split; [exact Hs|].
  destruct (explicit_err_is_ignored err5_cmd log_world _ _ Hs
              eq_refl ltac:(simpl; lia))
    as (pc & Hch & _ & _ & H2 & H5 & H5p & _).
  exists pc. split; [|split; [|split]].
  - unfold last_child. rewrite Hch. reflexivity.
  - rewrite H2 by (simpl; lia). reflexivity.
  - etransitivity; [exact (H5 ltac:(simpl; lia) ltac:(simpl; lia) ltac:(simpl; lia))|].
    reflexivity.
  - etransitivity;
      [exact (H5p ltac:(eexists; vm_compute; reflexivity)
                  ltac:(simpl; lia) ltac:(simpl; lia))|].
    reflexivity.
Defined.

(** C9, the claim refuted: with git's [die], a child that cannot enter
    its directory is reaped as a normal exit with code 128; the value
    the parent gets is -128, which is neither the signaled nor the
    abnormal-termination error. *)
Lemma bad_directory_is_child_exit :
  returned (run_command_v_opt_cd ["true"%string] 0 (Some "/nonexistent"%string)
              demo_world) = Some (-128)
  /\ - 128 = code_of (ChildExit 128)
  /\ - 128 <> code_of SignaledTermination
  /\ - 128 <> code_of AbnormalTermination.
Proof. vm_compute. repeat split; try reflexivity; discriminate. Qed.

Lemma bad_directory_child_dies_witness :
  start_command nowhere_cmd demo_world
    = Ret (0, set_pid 100 nowhere_cmd)
          (world_after (start_command nowhere_cmd demo_world) demo_world)
  /\ exists w'', run_command nowhere_cmd demo_world = Ret (-128) w''.
Proof.
  assert (start_command nowhere_cmd demo_world
          = Ret (0, set_pid 100 nowhere_cmd)
                (world_after (start_command nowhere_cmd demo_world) demo_world)) as Hs
    by (vm_compute; reflexivity).
  split; [exact Hs|].
  destruct (bad_directory_child_dies nowhere_cmd demo_world _ _ 0%nat Hs eq_refl eq_refl)
    as (pc & w'' & _ & _ & _ & _ & _ & Hrun & _).
  exists w''. exact Hrun.
Defined.

Lemma env_applied_in_order_witness :
  start_command foo_cmd demo_world
    = Ret (0, set_pid 100 foo_cmd)
          (world_after (start_command foo_cmd demo_world) demo_world)
  /\ exists pc,
       last_child (world_after (start_command foo_cmd demo_world) demo_world) = Some pc
       /\ environ pc !! "FOO"%string = None
       /\ environ pc !! "BAZ"%string = Some "1"%string.
Proof.
  assert (start_command foo_cmd demo_world
          = Ret (0, set_pid 100 foo_cmd)
                (world_after (start_command foo_cmd demo_world) demo_world)) as Hs
    by (vm_compute; reflexivity).
  split; [exact Hs|].
  destruct (env_applied_in_order foo_cmd demo_world _ _ _ Hs eq_refl eq_refl)
    as (pc & Hch & Henv & _ & Hfoo & _).
  exists pc. split; [|split].
  - unfold last_child. rewrite Hch. reflexivity.
  - apply (Hfoo "FOO"%string "bar"%string [] ["BAZ=1"%string] []).
    + reflexivity.
    + discriminate.
    + reflexivity.
    + constructor.
  - rewrite Henv. vm_compute. reflexivity.
Defined.

Lemma start_async_runs_producer_witness :
  exists rd w',
    start_async (echo_task 7) demo_world
      = Ret (0, set_a_out rd (set_a_pid 100 (echo_task 7))) w'
    /\ exists pc, children w' = [(100, Exited 1 pc)].
Proof.
  destruct (start_async_runs_producer (echo_task 7) demo_world [true; true] 100 [101]
              eq_refl eq_refl ltac:(lia))
    as (rd & wr & c & w' & Hs & _ & _ & _ & Hch & _ & _ & Hc).
  exists rd, w'. split; [exact Hs|].
  eexists. rewrite Hch. rewrite (Hc 7 _ eq_refl). reflexivity.
Defined.

Lemma finish_async_reports_worker_witness :
  exists a' w' w'',
    start_async (echo_task 7) demo_world = Ret (0, a') w'
    /\ finish_async a' w' = Ret (-1) w''.
Proof.
  destruct (finish_async_reports_worker (echo_task 7) demo_world [true; true] 100 [101]
              0%nat 7 eq_refl eq_refl ltac:(lia) eq_refl
              ltac:(intros fd w0; exists w0; reflexivity))
    as (_ & a' & w' & v & w'' & Hs & Hf & _ & Hv).
  exists a', w', w''. split; [exact Hs|].
  destruct Hv as [_ ->]; [lia|]. exact Hf.
Defined.

(** * Further properties of the code *)

(** ** What a launch returns *)

Section LaunchCodes.
Context {usage : Usage}.

Lemma piped_cmd_same cmd p b1 a2 a3 :
  same_request cmd (set_pid p (piped_cmd cmd b1 a2 a3))
  /\ (needs_in cmd = false -> in_ (set_pid p (piped_cmd cmd b1 a2 a3)) = in_ cmd)
  /\ (needs_out cmd = false -> out (set_pid p (piped_cmd cmd b1 a2 a3)) = out cmd)
  /\ (needs_err cmd = false -> err (set_pid p (piped_cmd cmd b1 a2 a3)) = err cmd)
  /\ (needs_in cmd = true -> in_ (set_pid p (piped_cmd cmd b1 a2 a3)) = b1)
  /\ (needs_out cmd = true -> out (set_pid p (piped_cmd cmd b1 a2 a3)) = a2)
  /\ (needs_err cmd = true -> err (set_pid p (piped_cmd cmd b1 a2 a3)) = a3).
Proof.
  unfold same_request, piped_cmd.
  destruct (needs_in cmd), (needs_out cmd), (needs_err cmd); simpl;
    repeat split; intros; try discriminate; reflexivity.
Qed.

(** X1: [start_command] always returns to its caller, with one of three
    results: [-ERR_RUN_COMMAND_PIPE], in which case [cmd->pid] is as it
    was; [-ERR_RUN_COMMAND_FORK], in which case [cmd->pid] is -1; or 0,
    in which case [cmd->pid] is the positive pid of the child.  In all
    three the program, directory, environment and flags of [cmd] are
    untouched, and [in], [out] and [err] change only for a stream that
    needed a pipe. *)
Theorem start_command_codes cmd w :
  exists r cmd' w',
    start_command cmd w = Ret (r, cmd') w'
    /\ same_request cmd cmd'
    /\ (needs_in cmd = false -> in_ cmd' = in_ cmd)
    /\ (needs_out cmd = false -> out cmd' = out cmd)
    /\ (needs_err cmd = false -> err cmd' = err cmd)
    /\ ((r = - ERR_RUN_COMMAND_PIPE /\ pid cmd' = pid cmd)
        \/ (r = - ERR_RUN_COMMAND_FORK /\ pid cmd' = -1)
        \/ (r = 0 /\ 0 < pid cmd')).
Proof.
  unfold start_command.
  change (negb (no_stdin cmd) && (in_ cmd <? 0)) with (needs_in cmd).
  set (ni := needs_in cmd).
  destruct (maybe_pipe_cases ni w) as [(a1 & b1 & F1 & N1 & E1)|[T1 E1]];
    rewrite (bind_Ret _ _ _ _ _ E1); cbv zeta.
  2:{ exists (- ERR_RUN_COMMAND_PIPE), cmd, (pipe_failed w).
      split; [reflexivity|]. unfold same_request. auto 20. }
  simpl snd. simpl fst.
  set (cmd1 := if ni then set_in b1 cmd else cmd).
  assert (negb (no_stdout cmd1) && negb (stdout_to_stderr cmd1) && (out cmd1 <? 0)
          = needs_out cmd) as -> by (subst cmd1; destruct ni; reflexivity).
  set (no := needs_out cmd).
  set (w1 := alloc_world ni a1 b1 w) in *.
  destruct (maybe_pipe_cases no w1) as [(a2 & b2 & F2 & N2 & E2)|[T2 E2]];
    rewrite (bind_Ret _ _ _ _ _ E2); cbv zeta.
  2:{ destruct (fd_only_close_pair (a1, b1) (pipe_failed w1)) as (w' & Ec & _).
      exists (- ERR_RUN_COMMAND_PIPE), cmd1, (if ni then w' else pipe_failed w1).
      split.
      { unfold when. destruct ni.
        - rewrite (bind_Ret _ _ _ _ _ Ec). reflexivity.
        - reflexivity. }
      subst cmd1 ni. unfold same_request.
      destruct (needs_in cmd); simpl; repeat split; intros; try discriminate; auto. }
  simpl snd. simpl fst.
  set (cmd2 := if no then set_out a2 cmd1 else cmd1).
  assert (negb (no_stderr cmd2) && (err cmd2 <? 0) = needs_err cmd) as ->
    by (subst cmd2 cmd1; destruct ni, no; reflexivity).
  set (ne := needs_err cmd).
  set (w2 := alloc_world no a2 b2 w1) in *.
  destruct (maybe_pipe_cases ne w2) as [(a3 & b3 & F3 & N3 & E3)|[T3 E3]];
    rewrite (bind_Ret _ _ _ _ _ E3); cbv zeta.
  2:{ assert (fd_only (when ni (close_pair (a1, b1)) ;;; when no (close_pair (a2, b2))))
        as Hc by (destruct ni, no; simpl; auto with fd_only).
      destruct (Hc (pipe_failed w2)) as (w' & Ec & _).
      exists (- ERR_RUN_COMMAND_PIPE), cmd2, w'. split.
      { revert Ec. unfold bind.
        destruct (when ni (close_pair (a1, b1)) (pipe_failed w2)) as [[] wa| | |];
          try discriminate.
        destruct (when no (close_pair (a2, b2)) wa) as [[] wb| | |]; try discriminate.
        intros [= ->]. reflexivity. }
      subst cmd2 cmd1 ni no. unfold same_request.
      destruct (needs_in cmd), (needs_out cmd); simpl;
        repeat split; intros; try discriminate; auto. }
  simpl snd. simpl fst.
  set (cmd3 := if ne then set_err a3 cmd2 else cmd2).
  assert (cmd3 = piped_cmd cmd b1 a2 a3) as Hc3 by reflexivity.
  set (w3 := alloc_world ne a3 b3 w2) in *.
  match goal with |- context [fork ?k w3] =>
    pose proof (fork_cases k w3) as Hf
  end.
  destruct Hf as [(p & Hp & Hh & Ef)|[_ Ef]]; rewrite Ef; clear Ef; cbv beta zeta.
  - replace (p <? 0) with false by (symmetry; apply Z.ltb_ge; lia).
    replace (p =? 0) with false by (symmetry; apply Z.eqb_neq; lia).
    match goal with |- context [bind (parent_branch ?c ?x ?y ?z ?f1 ?f2 ?f3) _ ?W] =>
      destruct (parent_branch_closes c x y z f1 f2 f3 W) as (w' & fds & Ep & Fp & Lp)
    end.
    rewrite (bind_Ret _ _ _ _ _ Ep).
    exists 0, (set_pid p cmd3), w'. split; [reflexivity|].
    rewrite Hc3.
    destruct (piped_cmd_same cmd p b1 a2 a3) as (H1 & H2 & H3 & H4 & _).
    repeat (split; [assumption|]). right. right. split; [reflexivity | exact Hp].
  - change (-1 <? 0) with true. cbv iota.
    assert (fd_only (when ni (close_pair (a1, b1)) ;;; when no (close_pair (a2, b2))
                     ;;; when ne (close_pair (a3, b3))))
      as Hc by (destruct ni, no, ne; simpl; auto with fd_only).
    destruct (Hc (fork_failed w3)) as (w' & Ec & _).
    exists (- ERR_RUN_COMMAND_FORK), (set_pid (-1) cmd3), w'.
    split.
    { revert Ec. unfold bind.
      destruct (when ni (close_pair (a1, b1)) (fork_failed w3)) as [[] wa| | |];
        try discriminate.
      destruct (when no (close_pair (a2, b2)) wa) as [[] wb| | |]; try discriminate.
      destruct (when ne (close_pair (a3, b3)) wb) as [[] wc| | |]; try discriminate.
      intros [= ->]. reflexivity. }
    rewrite Hc3.
    destruct (piped_cmd_same cmd (-1) b1 a2 a3) as (H1 & H2 & H3 & H4 & _).
    repeat (split; [assumption|]). right. left. split; reflexivity.
Qed.

End LaunchCodes.

(** ** Return codes of the wait and of a whole run *)

Section Codes.
Context {abi : WaitABI} {usage : Usage}.

Lemma code_of_classify_range pid waiting status :
  wait_code (code_of (spec_classify pid waiting status)).
Proof.
  unfold wait_code, spec_classify.
  destruct (waiting <? 0); [simpl; auto 10|].
  destruct (negb (waiting =? pid)); [simpl; auto 10|].
  destruct (WIFSIGNALED status); [simpl; auto 10|].
  destruct (negb (WIFEXITED status)); [simpl; auto 10|].
  destruct (Z.eqb_spec (WEXITSTATUS status) 0); [simpl; auto|].
  pose proof (WEXITSTATUS_range status). simpl. right. left. lia.
Qed.

Lemma wait_or_whine_cases pid w :
  wait_or_whine pid w = Diverge
  \/ exists a, first_answer pid w a
               /\ wait_or_whine pid w
                  = Ret (code_of (spec_classify pid (fst (fst a)) (snd (fst a)))) (snd a).
Proof.
  destruct (wait_loop_total pid (S (wait_measure w)) w ltac:(lia)) as [[a Ha]|Hd].
  - right. exists a. split; [exact Ha|]. apply wait_or_whine_first_answer. exact Ha.
  - left. exact Hd.
Qed.

(** X2: what [wait_or_whine] returns, when it returns, is never
    positive: it is 0, the negation of an exit code (between -255 and
    -1, [WEXITSTATUS] being at most 255), or the negation of one of the
    four [ERR_RUN_COMMAND_WAITPID*] codes. *)
Theorem wait_or_whine_range pid w :
  wait_or_whine pid w = Diverge
  \/ exists r w', wait_or_whine pid w = Ret r w' /\ wait_code r /\ r <= 0.
Proof.
  destruct (wait_or_whine_cases pid w) as [Hd|(a & _ & E)]; [left; exact Hd|].
  right. eexists _, _. split; [exact E|].
  pose proof (code_of_classify_range pid (fst (fst a)) (snd (fst a))) as Hr.
  split; [exact Hr|]. unfold wait_code in Hr.
  unfold ERR_RUN_COMMAND_WAITPID_NOEXIT, ERR_RUN_COMMAND_WAITPID_SIGNAL,
    ERR_RUN_COMMAND_WAITPID_WRONG_PID, ERR_RUN_COMMAND_WAITPID, ERR_RUN_COMMAND_PIPE,
    ERR_RUN_COMMAND_EXEC, ERR_RUN_COMMAND_FORK in Hr. lia.
Qed.

(** X3: what [run_command] returns, when it returns, is never positive:
    it is [-ERR_RUN_COMMAND_PIPE] or [-ERR_RUN_COMMAND_FORK] from the
    launch, or one of the values of [wait_or_whine]; it is never
    [-ERR_RUN_COMMAND_EXEC], a failed exec being reported through the
    child's exit code. *)
Theorem run_command_range cmd w :
  run_command cmd w = Diverge
  \/ exists r w',
       run_command cmd w = Ret r w'
       /\ (r = - ERR_RUN_COMMAND_PIPE \/ r = - ERR_RUN_COMMAND_FORK \/ wait_code r)
       /\ r <= 0 /\ r <> - ERR_RUN_COMMAND_EXEC.
Proof.
  unfold run_command.
  destruct (start_command_codes cmd w)
    as (r & cmd' & w' & E & _ & _ & _ & _ & Hr).
  rewrite (bind_Ret _ _ _ _ _ E). cbv beta iota.
  assert (forall x, wait_code x -> x <= 0 /\ x <> - ERR_RUN_COMMAND_EXEC) as Hw.
  { unfold wait_code, ERR_RUN_COMMAND_WAITPID_NOEXIT, ERR_RUN_COMMAND_WAITPID_SIGNAL,
      ERR_RUN_COMMAND_WAITPID_WRONG_PID, ERR_RUN_COMMAND_WAITPID, ERR_RUN_COMMAND_PIPE,
      ERR_RUN_COMMAND_EXEC, ERR_RUN_COMMAND_FORK. intros x Hx. lia. }
  destruct Hr as [[-> _]|[[-> _]|[-> _]]].
  - right. eexists _, _. split; [reflexivity|]. split; [auto|].
    unfold ERR_RUN_COMMAND_PIPE, ERR_RUN_COMMAND_EXEC, ERR_RUN_COMMAND_FORK. lia.
  - right. eexists _, _. split; [reflexivity|]. split; [auto|].
    unfold ERR_RUN_COMMAND_EXEC, ERR_RUN_COMMAND_FORK. lia.
  - change (negb (0 =? 0)) with false. cbv iota. unfold finish_command.
    destruct (wait_or_whine_range (pid cmd') w') as [Hd|(x & w'' & Ex & Hx & _)].
    + left. exact Hd.
    + right. exists x, w''. split; [exact Ex|]. split; [auto|]. apply Hw. exact Hx.
Qed.

(** X4: when the launch forks, the child gets into its directory and
    [waitpid] is at most interrupted a number of times, [run_command]
    returns the classification of the status with which the program
    ended if it could be executed, and minus the code of [die] if not;
    so a program that exits with code [c] makes [run_command] return 0
    if [c mod 256] is 0 and [-(c mod 256)] otherwise. *)
Theorem run_command_reports_program cmd w cmd' w' n :
  start_command cmd w = Ret (0, cmd') w' ->
  chdir_fails cmd w = false ->
  wait_script w = replicate n (WFail EINTR) ->
  exists w'',
    run_command cmd w
    = Ret (if exec_ok cmd w
           then code_of (spec_classify (pid cmd') (pid cmd') (prog_status w (argv cmd)))
           else - die_code) w''
    /\ (exec_ok cmd w = true ->
        forall c, prog_status w (argv cmd) = W_EXITCODE c ->
                  run_command cmd w
                  = Ret (if c mod 256 =? 0 then 0 else - (c mod 256)) w'').
Proof.
  intros Hs Hcd Hw.
  destruct (start_command_forks cmd w cmd' w' Hs)
    as (p & a1 & b1 & a2 & b2 & a3 & b3 & pc & H). cbv zeta in H.
  destruct H as (Hp & Hh & -> & _ & _ & _ & Hch & _ & _ & _ & _ & _ & _ & Hpw & Hps).
  unfold child_fate in Hch. rewrite Hcd in Hch.
  rewrite <- Hpw in Hw. simpl pid.
  unfold run_command. rewrite (bind_Ret _ _ _ _ _ Hs). cbv beta iota.
  change (negb (0 =? 0)) with false. cbv iota. unfold finish_command. simpl pid.
  destruct (exec_ok cmd w) eqn:Eok.
  - destruct (reap_head_child p _ (prog_status w (argv cmd)) (children w) n w' Hw Hch
                ltac:(simpl; rewrite Hps; reflexivity) ltac:(lia)) as (w'' & Hfa & _).
    exists w''. rewrite (wait_or_whine_first_answer _ _ _ Hfa). simpl.
    split; [reflexivity|]. intros _ c Hc. rewrite Hc.
    rewrite spec_classify_exit by lia. destruct (c mod 256 =? 0); reflexivity.
  - destruct (wait_or_whine_exited p die_code pc (children w) n w' Hw Hch ltac:(lia))
      as (w'' & Hwait & _).
    rewrite die_code_mod in Hwait. pose proof die_code_reserved as Hd.
    replace (die_code =? 0) with false in Hwait by (symmetry; apply Z.eqb_neq; lia).
    exists w''. split; [exact Hwait|]. discriminate.
Qed.

Lemma find_child_absent pid cs :
  0 < pid -> Forall (fun c => fst c <> pid) cs -> find_child pid cs = None.
Proof.
  intros Hp. induction 1 as [|[q e] cs Hq _ IH]; simpl; [reflexivity|].
  simpl in Hq. rewrite IH.
  replace (pid =? q) with false by (symmetry; apply Z.eqb_neq; congruence).
  replace (pid =? -1) with false by (symmetry; apply Z.eqb_neq; lia).
  replace (pid =? 0) with false by (symmetry; apply Z.eqb_neq; lia).
  reflexivity.
Qed.

(** X5: a child can be reaped once.  With the child of [cmd] ended and
    no scripted answer pending, [finish_command] returns the
    classification of its status and takes it off the table of
    children; a second [finish_command] on the same [cmd] then finds no
    such child: [waitpid] fails with ECHILD and the result is
    [-ERR_RUN_COMMAND_WAITPID]. *)
Theorem second_reap_fails cmd w e st rest :
  wait_script w = [] ->
  children w = (pid cmd, e) :: rest ->
  status_of w e = Some st ->
  0 < pid cmd ->
  Forall (fun c => fst c <> pid cmd) rest ->
  exists w1 w2,
    finish_command cmd w = Ret (code_of (spec_classify (pid cmd) (pid cmd) st)) w1
    /\ children w1 = rest
    /\ finish_command cmd w1 = Ret (- ERR_RUN_COMMAND_WAITPID) w2
    /\ children w2 = rest /\ errno (self w2) = ECHILD.
Proof.
  intros Hw Hc Hst Hp Hrest. unfold finish_command.
  set (w1 := set_children rest (upd_self (add_log (EvWaitpid (pid cmd) (pid cmd))) w)).
  assert (first_answer (pid cmd) w (pid cmd, st, w1)) as H1.
  { apply first_answer_now.
    - unfold waitpid. rewrite Hw, Hc. simpl. rewrite Z.eqb_refl. simpl.
      rewrite Hst. reflexivity.
    - intros [Hneg _]. lia. }
  set (w2 := upd_self (fun p => set_errno ECHILD (add_log (EvWaitpid (pid cmd) (-1)) p)) w1).
  assert (first_answer (pid cmd) w1 (-1, 0, w2)) as H2.
  { apply first_answer_now.
    - unfold waitpid. simpl. rewrite Hw. rewrite find_child_absent by assumption.
      reflexivity.
    - intros [_ He]. simpl in He. discriminate. }
  exists w1, w2.
  rewrite (wait_or_whine_first_answer _ _ _ H1), (wait_or_whine_first_answer _ _ _ H2).
  simpl. repeat split; reflexivity.
Qed.

End Codes.

(** ** Option words *)

Lemma land_pow2_testbit a k :
  0 <= k -> negb (Z.land a (2 ^ k) =? 0) = Z.testbit a k.
Proof.
  intros Hk.
  assert (Z.land a (2 ^ k) = if Z.testbit a k then 2 ^ k else 0) as ->.
  { apply Z.bits_inj'. intros n Hn. rewrite Z.land_spec, Z.pow2_bits_eqb by lia.
    destruct (Z.eqb_spec k n) as [->|Hne].
    - destruct (Z.testbit a n); [|rewrite Z.bits_0; reflexivity].
      rewrite Z.pow2_bits_eqb by lia. rewrite Z.eqb_refl. reflexivity.
    - rewrite andb_false_r. destruct (Z.testbit a k); [|rewrite Z.bits_0; reflexivity].
      rewrite Z.pow2_bits_eqb by lia. symmetry. apply Z.eqb_neq. exact Hne. }
  destruct (Z.testbit a k); [|reflexivity].
  assert (0 < 2 ^ k) by (apply Z.pow_pos_nonneg; lia).
  replace (2 ^ k =? 0) with false by (symmetry; apply Z.eqb_neq; lia). reflexivity.
Qed.

(** X6: [prepare_run_command_v_opt] reads exactly the three low bits of
    the option word: [no_stdin] is bit 0, [git_cmd] bit 1,
    [stdout_to_stderr] bit 2, while [no_stdout] and [no_stderr] are
    never set; two option words that agree on these bits give the same
    configuration, and the word built from three flags gives these
    flags back. *)
Theorem prepare_decodes_option_bits argv opt :
  let cmd := prepare_run_command_v_opt argv opt in
  no_stdin cmd = Z.testbit opt 0
  /\ git_cmd cmd = Z.testbit opt 1
  /\ stdout_to_stderr cmd = Z.testbit opt 2
  /\ no_stdout cmd = false /\ no_stderr cmd = false
  /\ (forall opt', Z.land opt' 7 = Z.land opt 7 ->
        prepare_run_command_v_opt argv opt' = cmd)
  /\ (forall a b c, opt = option_bits a b c ->
        no_stdin cmd = a /\ git_cmd cmd = b /\ stdout_to_stderr cmd = c).
Proof.
  cbv zeta.
  assert (forall o, prepare_run_command_v_opt argv o
                    = mkChild argv 0 0 0 0 None None (Z.testbit o 0) false false
                              (Z.testbit o 1) (Z.testbit o 2)) as Hp.
  { intros o. unfold prepare_run_command_v_opt, RUN_COMMAND_NO_STDIN, RUN_GIT_CMD,
      RUN_COMMAND_STDOUT_TO_STDERR.
    change (Z.land o 1) with (Z.land o (2 ^ 0)).
    change (Z.land o 2) with (Z.land o (2 ^ 1)).
    change (Z.land o 4) with (Z.land o (2 ^ 2)).
    rewrite !land_pow2_testbit by lia. reflexivity. }
  rewrite Hp. simpl.
  split; [reflexivity|]. split; [reflexivity|]. split; [reflexivity|].
  split; [reflexivity|]. split; [reflexivity|]. split.
  - intros opt' H. rewrite Hp.
    assert (forall k, 0 <= k < 3 -> Z.testbit opt' k = Z.testbit opt k) as Hb.
    { intros k Hk.
      assert (Z.testbit (Z.land opt' 7) k = Z.testbit (Z.land opt 7) k) as Hl
        by (rewrite H; reflexivity).
      rewrite !Z.land_spec in Hl. change 7 with (Z.ones 3) in Hl.
      rewrite Z.ones_spec_low in Hl by lia. rewrite !andb_true_r in Hl. exact Hl. }
    rewrite !Hb by lia. reflexivity.
  - intros a b c ->. destruct a, b, c; repeat split; reflexivity.
Qed.

(** ** The descriptors of a launch, end to end *)

Section Frames.
Context {usage : Usage}.

(** X7: the wiring in the child touches descriptors 0, 1, 2 and the
    descriptors of [cmd->in] and [cmd->out] only: any other descriptor
    is, when the child calls exec, what it was in the parent at launch.
    In particular no end of a pipe made for the launch stays open in
    the child under its own number. *)
Theorem child_keeps_other_descriptors cmd w cmd' w' :
  start_command cmd w = Ret (0, cmd') w' ->
  exists pc,
    children w' = (pid cmd', child_fate cmd w pc) :: children w
    /\ forall k, k <> 0 -> k <> 1 -> k <> 2 -> k <> in_ cmd -> k <> out cmd ->
                 fdt pc !! k = fdt (self w) !! k.
Proof.
  intros Hs.
  destruct (start_command_forks cmd w cmd' w' Hs)
    as (p & a1 & b1 & a2 & b2 & a3 & b3 & pc & H). cbv zeta in H.
  destruct H as (Hp & Hh & -> & F1 & F2 & F3 & Hch & Hfd & _).
  exists pc. split; [exact Hch|]. intros k H0 H1 H2 Hin Hout.
  rewrite Hfd. unfold child_fdt.
  rewrite (wire_stderr_t_other cmd _ _ _ k eq_refl) by assumption.
  rewrite (wire_stdout_t_other cmd _ _ _ k eq_refl) by auto.
  rewrite (wire_stdin_t_other cmd _ _ _ k eq_refl) by auto.
  unfold piped_world, closed_in. clear Hfd Hch Hs.
  destruct (needs_in cmd), (needs_out cmd), (needs_err cmd); simpl in *;
    unfold fresh_pipe in *; simpl in *; fresh_facts;
    repeat match goal with
    | |- context [k =? ?a] => destruct (Z.eqb_spec k a); subst; simpl
    end; simplify_map_eq; congruence.
Qed.

(** X8: with descriptors 0, 1 and 2 open at launch, and the descriptors
    handed over in [cmd->in] and [cmd->out] open, each stream that
    needed a pipe is connected: the child's descriptor 0 is the read
    end of a pipe whose write end the parent holds in [cmd->in]; its
    descriptor 1 (and 2) is the write end of a pipe whose read end the
    parent holds in [cmd->out] ([cmd->err]); and the pipes are distinct,
    numbered in the order stdin, stdout, stderr. *)
Theorem auto_pipes_connect cmd w cmd' w' :
  start_command cmd w = Ret (0, cmd') w' ->
  std_open w -> explicit_open cmd w ->
  exists pc,
    children w' = (pid cmd', child_fate cmd w pc) :: children w
    /\ let n1 := n_pipes w in
       let n2 := if needs_in cmd then S n1 else n1 in
       let n3 := if needs_out cmd then S n2 else n2 in
       (needs_in cmd = true ->
          fdt pc !! 0 = Some (PipeR n1)
          /\ fdt (self w') !! in_ cmd' = Some (PipeW n1))
       /\ (needs_out cmd = true ->
             fdt pc !! 1 = Some (PipeW n2)
             /\ fdt (self w') !! out cmd' = Some (PipeR n2))
       /\ (needs_err cmd = true ->
             fdt pc !! 2 = Some (PipeW n3)
             /\ fdt (self w') !! err cmd' = Some (PipeR n3)).
Proof.
  intros Hs (O0 & O1 & O2) (Oin & Oout).
  destruct (start_command_forks cmd w cmd' w' Hs)
    as (p & a1 & b1 & a2 & b2 & a3 & b3 & pc & H). cbv zeta in H.
  destruct H as (Hp & Hh & -> & F1 & F2 & F3 & Hch & Hfd & _ & _ & Hpf & _).
  exists pc. split; [exact Hch|]. cbv zeta.
  pose proof (needs_in_negative cmd) as Nin.
  pose proof (needs_out_negative cmd) as Nout.
  unfold child_fdt in Hfd. unfold parent_fdt in Hpf.
  unfold piped_cmd, piped_world, fresh_pipe in *.
  destruct (needs_in cmd) eqn:Ni, (needs_out cmd) eqn:No, (needs_err cmd) eqn:Ne;
    simpl in *; fresh_facts.
  all: (split; [|split]); intros [=]; (split; [rewrite Hfd | rewrite Hpf]);
    clear Hfd Hpf Hs Hch.
  all: try match goal with
    | |- _ !! 0 = _ =>
        rewrite (wire_stderr_t_other cmd _ _ _ 0 Ne) by lia; not_closed;
        rewrite (wire_stdout_t_other cmd _ _ _ 0 No) by lia; not_closed;
        apply (wire_stdin_t_pipe cmd _ _ _ Ni); simpl; [ne_tac | ne_tac |];
        piped_lookup
    | |- _ !! 1 = _ =>
        rewrite (wire_stderr_t_other cmd _ _ _ 1 Ne) by lia; not_closed;
        apply (wire_stdout_t_pipe cmd _ _ _ No); simpl; [ne_tac | ne_tac |];
        rewrite (wire_stdin_t_other cmd _ _ _ _ Ni) by (first [ne_tac | intros ?; ne_tac]);
        not_closed; piped_lookup
    | |- _ !! 2 = _ =>
        apply (wire_stderr_t_pipe cmd _ _ _ Ne); simpl; [ne_tac | ne_tac |];
        rewrite (wire_stdout_t_other cmd _ _ _ _ No) by (first [ne_tac | intros ?; ne_tac]);
        not_closed;
        rewrite (wire_stdin_t_other cmd _ _ _ _ Ni) by (first [ne_tac | intros ?; ne_tac]);
        not_closed; piped_lookup
    end.
  all: repeat match goal with
    | |- context [in_ ?c =? 0] => destruct (Z.eqb_spec (in_ c) 0); simpl
    | |- context [1 <? out ?c] => destruct (Z.ltb_spec 1 (out c)); simpl
    end.
  all: piped_lookup.
Qed.

(** X10: with [stdout_to_stderr] set (and stdout not suppressed), the
    child's descriptor 1 is what descriptor 2 was at launch, whatever
    happens to stderr afterwards (stdout is wired before stderr, so a
    suppressed or piped stderr does not take stdout along); no pipe is
    made for stdout and [cmd->out] is left as it was. *)
Theorem stdout_follows_launch_stderr cmd w cmd' w' :
  start_command cmd w = Ret (0, cmd') w' ->
  no_stdout cmd = false -> stdout_to_stderr cmd = true ->
  std_open w -> in_ cmd <> 2 ->
  exists pc,
    children w' = (pid cmd', child_fate cmd w pc) :: children w
    /\ fdt pc !! 1 = fdt (self w) !! 2
    /\ out cmd' = out cmd.
Proof.
  intros Hs Hq Hr (O0 & O1 & O2) I2.
  destruct (start_command_forks cmd w cmd' w' Hs)
    as (p & a1 & b1 & a2 & b2 & a3 & b3 & pc & H). cbv zeta in H.
  destruct H as (Hp & Hh & -> & F1 & F2 & F3 & Hch & Hfd & _).
  exists pc. split; [exact Hch|].
  assert (needs_out cmd = false) as No
    by (unfold needs_out; rewrite Hr, Hq; reflexivity).
  split.
  2:{ apply (piped_cmd_same cmd p b1 a2 a3). exact No. }
  unfold child_fdt in Hfd. unfold piped_world, fresh_pipe in *. rewrite No in *.
  destruct (needs_in cmd) eqn:Ni, (needs_err cmd) eqn:Ne;
    simpl in *; fresh_facts; rewrite Hfd; clear Hfd Hs Hch.
  all: rewrite (wire_stderr_t_other cmd _ _ _ 1 Ne) by discriminate; not_closed.
  all: unfold wire_stdout_t; rewrite Hq, Hr; cbv iota.
  all: destruct O2 as [o O2]; rewrite O2; apply t_dup2_bound.
  all: rewrite (wire_stdin_t_other cmd _ _ _ 2 Ni)
         by (first [discriminate | intros _; apply not_eq_sym; assumption]).
  all: not_closed.
  all: repeat (rewrite lookup_insert_ne by ne_tac); exact O2.
Qed.

(** X11: a launch that forked leaves the parent's own directory and
    environment alone, and its descriptor table too, except for [cmd->in]
    if it is non-zero and no pipe was needed for stdin, and [cmd->out]
    if it is above 1, which the parent has closed, and for the ends of
    the pipes that were made, now held in [cmd->in], [cmd->out] and
    [cmd->err].  So on a launch with [in] and [out] zero and no pipe no
    descriptor of the parent changes. *)
Theorem parent_keeps_other_descriptors cmd w cmd' w' :
  start_command cmd w = Ret (0, cmd') w' ->
  (forall k,
     (needs_in cmd = false -> in_ cmd <> 0 -> k <> in_ cmd) ->
     (needs_out cmd = false -> 1 < out cmd -> k <> out cmd) ->
     (needs_in cmd = true -> k <> in_ cmd') ->
     (needs_out cmd = true -> k <> out cmd') ->
     (needs_err cmd = true -> k <> err cmd') ->
     fdt (self w') !! k = fdt (self w) !! k)
  /\ (in_ cmd <> 0 -> needs_in cmd = false -> fdt (self w') !! in_ cmd = None)
  /\ (1 < out cmd -> fdt (self w') !! out cmd = None)
  /\ cwd (self w') = cwd (self w) /\ environ (self w') = environ (self w).
Proof.
  intros Hs.
  destruct (start_command_forks cmd w cmd' w' Hs)
    as (p & a1 & b1 & a2 & b2 & a3 & b3 & pc & H). cbv zeta in H.
  destruct H as (Hp & Hh & -> & F1 & F2 & F3 & _ & _ & _ & _ & Hpf & Hc & He & _).
  pose proof (needs_out_negative cmd) as Nout.
  split; [|split; [|split; [|split; assumption]]]; rewrite Hpf; clear Hpf Hs.
  - intros k. unfold parent_fdt, piped_cmd, piped_world, fresh_pipe in *.
    destruct (needs_in cmd), (needs_out cmd), (needs_err cmd);
      simpl in *; fresh_facts; intros;
      repeat match goal with
      | |- context [in_ ?c =? 0] => destruct (Z.eqb_spec (in_ c) 0); simpl
      | |- context [1 <? out ?c] => destruct (Z.ltb_spec 1 (out c)); simpl
      end;
      use_flags; key_cases k; subst; simplify_map_eq; congruence.
  - intros Hin Ni. unfold parent_fdt. rewrite Ni.
    destruct (Z.eqb_spec (in_ cmd) 0); [contradiction|]. simpl.
    repeat match goal with
    | |- context [if ?c then _ else _] => destruct c
    end;
    repeat first [apply lookup_delete_eq | apply lookup_delete_None; right].
  - intros Hout. unfold parent_fdt.
    destruct (needs_out cmd); [specialize (Nout eq_refl); lia|].
    destruct (Z.ltb_spec 1 (out cmd)); [|lia].
    repeat match goal with
    | |- context [if ?c then _ else _] => destruct c
    end;
    repeat first [apply lookup_delete_eq | apply lookup_delete_None; right].
Qed.

End Frames.

(** ** Starting an async worker *)

Section AsyncOutcome.
Context {abi : WaitABI} {usage : Usage} {D : Type}.

(** X12: [start_async] always returns to its caller, with the
    producer and its datum untouched.  Either it returns 0: [pid] is
    the positive pid of a new child and [out] a descriptor that was
    free, now the read end of the new pipe, the only change to the
    descriptor table; or it returns a negative value (the pipe or the
    fork failed): then [out] is as it was, no child was made, and the
    descriptor table is what it was, both ends of the pipe being closed
    again. *)
Theorem start_async_outcome (a : async D) w :
  exists r a' w',
    start_async a w = Ret (r, a') w'
    /\ proc a' = proc a /\ data a' = data a
    /\ ((r = 0 /\ 0 < a_pid a' /\ fdt (self w) !! a_out a' = None
         /\ fdt (self w') = <[a_out a' := PipeR (n_pipes w)]> (fdt (self w))
         /\ exists c, children w' = (a_pid a', c) :: children w)
        \/ (r < 0 /\ a_out a' = a_out a /\ fdt (self w') = fdt (self w)
            /\ children w' = children w)).
Proof.
  unfold start_async.
  destruct (pipe_cases w) as [(rd & wr & Hrd & Hwr & E)|E].
  2:{ rewrite (bind_Ret _ _ _ _ _ E). eexists error_ret, a, (pipe_failed w).
      split; [reflexivity|]. split; [reflexivity|]. split; [reflexivity|].
      right. split; [apply error_ret_negative|]. auto. }
  rewrite (bind_Ret _ _ _ _ _ E). cbv iota beta.
  apply lookup_insert_None in Hwr as [Hwr Hne].
  match goal with |- context [fork ?k ?W] => pose proof (fork_cases k W) as Hf end.
  destruct Hf as [(p & Hp & Hh & Ef)|[Hh Ef]]; rewrite Ef; clear Ef; cbv beta zeta.
  - replace (p <? 0) with false by (symmetry; apply Z.ltb_ge; lia).
    replace (p =? 0) with false by (symmetry; apply Z.eqb_neq; lia).
    change (0 <? 0) with false. change (0 =? 0) with true. cbv iota.
    simpl fst. simpl snd.
    match goal with |- context [bind (close wr) _ ?W] =>
      rewrite (bind_Ret _ _ _ _ _ (close_open wr W
                                     ltac:(simpl; rewrite lookup_insert_eq; eauto)))
    end.
    eexists _, _, _. split; [reflexivity|]. split; [reflexivity|].
    split; [reflexivity|]. left. simpl.
    split; [reflexivity|]. split; [exact Hp|]. split; [exact Hrd|].
    split; [|eauto].
    rewrite delete_insert_eq. apply delete_id.
    rewrite lookup_insert_ne by exact Hne. exact Hwr.
  - change (-1 <? 0) with true. cbv iota.
    unfold error at 1. unfold bind at 1, ret at 1.
    match goal with |- context [bind (close_pair (rd, wr)) _ ?W] =>
      rewrite (bind_Ret _ _ _ _ _ (when_close_pair true rd wr W
        ltac:(intros _; simpl; rewrite lookup_insert_ne by congruence;
              rewrite !lookup_insert_eq; eauto)))
    end.
    eexists _, _, _. split; [reflexivity|]. split; [reflexivity|].
    split; [reflexivity|]. right. simpl.
    split; [lia|]. split; [reflexivity|]. split; [|reflexivity].
    apply map_eq. intros k.
    destruct (decide (k = wr)) as [->|Hk1]; [rewrite lookup_delete_eq; auto|].
    rewrite lookup_delete_ne by auto.
    destruct (decide (k = rd)) as [->|Hk2]; [rewrite lookup_delete_eq; auto|].
    rewrite lookup_delete_ne, !lookup_insert_ne by auto. reflexivity.
Qed.

End AsyncOutcome.

(** ** The null device *)


(** ** Variables the entries of [env] do not name *)

Lemma env_name_bare s : strchr s "=" = None -> env_name s = s.
Proof.
  induction s as [|c s IH]; simpl; [reflexivity|].
  destruct (Ascii.eqb c "="); [discriminate|]. intros H. rewrite (IH H). reflexivity.
Qed.

Lemma env_step_other e s k : env_name s <> k -> env_step e s !! k = e !! k.
Proof.
  intros Hk. unfold env_step. destruct (strchr s "=") as [rest|] eqn:E.
  - destruct (strchr_env_name s rest E) as [v ->].
    apply lookup_insert_ne. exact Hk.
  - rewrite (env_name_bare s E) in Hk. destruct s; [reflexivity|].
    apply lookup_delete_ne. exact Hk.
Qed.

Lemma fold_env_other l : forall e k,
  Forall (fun s => env_name s <> k) l ->
  fold_left env_step l e !! k = e !! k.
Proof.
  induction l as [|s l IH]; intros e k Hall; simpl; [reflexivity|].
  inversion Hall as [|? ? Hs Hl]; subst.
  rewrite (IH _ _ Hl). apply env_step_other. exact Hs.
Qed.

Section Environment.
Context {usage : Usage}.

(** X14: in a child that got past [chdir], an entry of [cmd->env]
    touches only the variable it names: a variable that no entry names
    has the parent's value (all of them when [cmd->env] is NULL), and a
    variable defined by "K=v" with no later entry naming K has the
    value v. *)
Theorem env_last_entry_decides cmd w cmd' w' :
  start_command cmd w = Ret (0, cmd') w' ->
  chdir_fails cmd w = false ->
  exists pc,
    children w' = (pid cmd', child_fate cmd w pc) :: children w
    /\ (forall k,
          (forall l, env cmd = Some l -> Forall (fun s => env_name s <> k) l) ->
          environ pc !! k = environ (self w) !! k)
    /\ (forall l k v pre post,
          env cmd = Some l ->
          l = pre ++ (k +:+ String "=" v) :: post ->
          strchr k "=" = None ->
          Forall (fun s => env_name s <> k) post ->
          environ pc !! k = Some v).
Proof.
  intros Hs Hcd.
  destruct (start_command_forks cmd w cmd' w' Hs)
    as (p & a1 & b1 & a2 & b2 & a3 & b3 & pc & H). cbv zeta in H.
  destruct H as (Hp & Hh & -> & _ & _ & _ & Hch & _ & Henv & _).
  rewrite Hcd in Henv. exists pc. split; [exact Hch|]. rewrite Henv. split.
  - intros k Hk. unfold env_after. destruct (env cmd) as [l|]; [|reflexivity].
    apply fold_env_other. apply Hk. reflexivity.
  - intros l k v pre post -> -> Hk Hpost. simpl.
    rewrite fold_left_app. simpl. rewrite (fold_env_other _ _ _ Hpost).
    rewrite env_step_set by exact Hk. apply lookup_insert_eq.
Qed.

End Environment.

(** ** The further properties at concrete launches *)

Lemma run_command_reports_program_witness :
  returned (run_command (plain_cmd "false") demo_world) = Some (-1).
Proof.
  assert (start_command (plain_cmd "false") demo_world
          = Ret (0, set_pid 100 (plain_cmd "false"))
                (world_after (start_command (plain_cmd "false") demo_world) demo_world))
    as Hs by (vm_compute; reflexivity).
  destruct (run_command_reports_program (plain_cmd "false") demo_world _ _ 0%nat
              Hs eq_refl eq_refl) as (w'' & E & _).
  rewrite E. vm_compute. reflexivity.
Defined.

Lemma second_reap_fails_witness :
  exists w1 w2,
    finish_command (set_pid 100 (plain_cmd "false"))
      (world_after (start_command (plain_cmd "false") demo_world) demo_world)
    = Ret (-1) w1
    /\ finish_command (set_pid 100 (plain_cmd "false")) w1
       = Ret (- ERR_RUN_COMMAND_WAITPID) w2
    /\ errno (self w2) = ECHILD.
Proof.
  destruct (second_reap_fails (set_pid 100 (plain_cmd "false"))
              (world_after (start_command (plain_cmd "false") demo_world) demo_world)
              (Execd false ["false"%string]
                 (mkProcess std_fdt "/" ∅ ENONE
                    [EvExec false ["false"%string] true; EvFork 0]))
              (linux_W_EXITCODE 1) [])
    as (w1 & w2 & E1 & _ & E2 & _ & He).
  - vm_compute. reflexivity.
  - vm_compute. reflexivity.
  - vm_compute. reflexivity.
  - simpl. lia.
  - constructor.
  - exists w1, w2. split; [|split; assumption]. rewrite E1. vm_compute. reflexivity.
Defined.

Lemma child_keeps_other_descriptors_witness :
  exists pc,
    last_child (world_after (start_command captured_cmd log_world) log_world) = Some pc
    /\ fdt pc !! 5 = Some (File "errors.log")
    /\ fdt pc !! 4 = None.
Proof.
  assert (start_command captured_cmd log_world
          = Ret (0, mkChild ["true"%string] 100 4 6 8 None None
                      false false false false false)
                (world_after (start_command captured_cmd log_world) log_world))
    as Hs by (vm_compute; reflexivity).
  destruct (child_keeps_other_descriptors captured_cmd log_world _ _ Hs)
    as (pc & Hch & Hk).
  exists pc. split; [|split].
  - unfold last_child. rewrite Hch. reflexivity.
  - rewrite Hk by (simpl; lia). reflexivity.
  - rewrite Hk by (simpl; lia). reflexivity.
Defined.

Lemma parent_keeps_other_descriptors_witness :
  fdt (self (world_after (start_command (plain_cmd "true") demo_world) demo_world)) !! 0
  = Some (File "tty")
  /\ fdt (self (world_after (start_command in5_cmd log_world) log_world)) !! 2
     = Some (File "tty")
  /\ fdt (self (world_after (start_command in5_cmd log_world) log_world)) !! 5 = None.
Proof.
  assert (start_command (plain_cmd "true") demo_world
          = Ret (0, set_pid 100 (plain_cmd "true"))
                (world_after (start_command (plain_cmd "true") demo_world) demo_world))
    as Hp by (vm_compute; reflexivity).
  assert (start_command in5_cmd log_world
          = Ret (0, set_pid 100 in5_cmd)
                (world_after (start_command in5_cmd log_world) log_world))
    as Hs by (vm_compute; reflexivity).
  destruct (parent_keeps_other_descriptors (plain_cmd "true") demo_world _ _ Hp)
    as (Hk0 & _).
  destruct (parent_keeps_other_descriptors in5_cmd log_world _ _ Hs)
    as (Hk & Hin & _).
  split; [|split].
  - rewrite Hk0; [reflexivity | | | | |]; simpl; intros; first [lia | discriminate].
  - rewrite Hk; [reflexivity | | | | |]; simpl; intros; first [lia | discriminate].
  - apply Hin; [simpl; lia | reflexivity].
Defined.

Lemma auto_pipes_connect_witness :
  exists pc,
    last_child (world_after (start_command captured_cmd demo_world) demo_world) = Some pc
    /\ fdt pc !! 0 = Some (PipeR 0)
    /\ fdt (self (world_after (start_command captured_cmd demo_world) demo_world)) !! 4
       = Some (PipeW 0)
    /\ fdt pc !! 2 = Some (PipeW 2)
    /\ fdt (self (world_after (start_command captured_cmd demo_world) demo_world)) !! 7
       = Some (PipeR 2).
Proof.
  assert (start_command captured_cmd demo_world
          = Ret (0, mkChild ["true"%string] 100 4 5 7 None None
                      false false false false false)
                (world_after (start_command captured_cmd demo_world) demo_world))
    as Hs by (vm_compute; reflexivity).
  destruct (auto_pipes_connect captured_cmd demo_world _ _ Hs)
    as (pc & Hch & Hi & _ & He).
  - repeat split; eexists; vm_compute; reflexivity.
  - split; [intros _; discriminate | simpl; lia].
  - exists pc. destruct (Hi eq_refl) as [Hi1 Hi2]. destruct (He eq_refl) as [He1 He2].
    split; [unfold last_child; rewrite Hch; reflexivity|].
    split; [exact Hi1|]. split; [exact Hi2|]. split; [exact He1 | exact He2].
Defined.


Lemma env_last_entry_decides_witness :
  exists pc,
    last_child (world_after (start_command foo_cmd home_world) home_world) = Some pc
    /\ environ pc !! "HOME"%string = Some "/root"%string
    /\ environ pc !! "BAZ"%string = Some "1"%string.
Proof.
  assert (start_command foo_cmd home_world
          = Ret (0, set_pid 100 foo_cmd)
                (world_after (start_command foo_cmd home_world) home_world))
    as Hs by (vm_compute; reflexivity).
  destruct (env_last_entry_decides foo_cmd home_world _ _ Hs eq_refl)
    as (pc & Hch & Hkeep & Hlast).
  exists pc. split; [unfold last_child; rewrite Hch; reflexivity|]. split.
  - rewrite Hkeep; [vm_compute; reflexivity|].
    intros l [= <-]. repeat constructor; discriminate.
  - apply (Hlast ["FOO=bar"%string; "BAZ=1"%string; "FOO"%string]
             "BAZ"%string "1"%string ["FOO=bar"%string] ["FOO"%string]).
    + reflexivity.
    + reflexivity.
    + reflexivity.
    + repeat constructor. discriminate.
Defined.

Lemma stdout_follows_launch_stderr_witness :
  exists pc,
    last_child (world_after (start_command redirected_cmd demo_world) demo_world)
    = Some pc
    /\ fdt pc !! 1 = Some (File "tty").
Proof.
  assert (start_command redirected_cmd demo_world
          = Ret (0, set_pid 100 redirected_cmd)
                (world_after (start_command redirected_cmd demo_world) demo_world))
    as Hs by (vm_compute; reflexivity).
  destruct (stdout_follows_launch_stderr redirected_cmd demo_world _ _ Hs
              eq_refl eq_refl)
    as (pc & Hch & H1 & _).
  - repeat split; eexists; vm_compute; reflexivity.
  - simpl; lia.
  - exists pc. split; [unfold last_child; rewrite Hch; reflexivity|].
    rewrite H1. vm_compute. reflexivity.
Defined.
